(** * pdf-utils: the job queue, session state and dispatch layer of [bot.py]

    A shallow embedding of the coordination layer of the Telegram PDF
    utility bot: the helpers ([human_readable_size], [get_page_count],
    [progress_bar]), the PDF operations, the queue and its single worker
    thread, the [require_pdf] decorator, the upload handler and the
    [/clean] command.

    Conventions.
    - Python [str] values are byte strings (UTF-8); [int] is [Z]; [float]
      is IEEE-754 binary64, computed with the Standard Library's
      [SpecFloat].
    - Code that raises is written in a state-and-exception monad
      [M S A := S -> S * result A].
    - Every call that leaves the process (Telegram transport, [time.sleep],
      [print], opening a file for writing, PyMuPDF's [save]) is recorded
      in the call log of the environment; whether such a call raises is
      decided by [faults], a parameter that receives the log so far.
    - The two PDF libraries are kept apart: [PdfReader] of PyPDF2 reads
      PDF files only, [fitz.open] of PyMuPDF also opens other formats,
      and each raises exceptions of its own. *)

From Stdlib Require Import ZArith List Bool Ascii String Decimal DecimalString.
From Stdlib Require Import SpecFloat Lia DecimalPos DecimalZ.
From stdpp Require Import base option list gmap strings.

Open Scope string_scope.
Open Scope list_scope.
Open Scope Z_scope.

(* ===================================================================== *)
(** * Python primitives *)
(* ===================================================================== *)

(** ** [str] *)

Definition is_upper (c : ascii) : bool :=
  (65 <=? nat_of_ascii c)%nat && (nat_of_ascii c <=? 90)%nat.

(** [str.lower] on the ASCII range. Bytes above 127 are left alone; no
    character outside ASCII lowers to one of [.], [p], [d], [f], so the
    suffix test of the upload handler is not affected. *)
Definition lower_char (c : ascii) : ascii :=
  if is_upper c then ascii_of_nat (nat_of_ascii c + 32) else c.

Fixpoint lower (s : string) : string :=
  match s with
  | EmptyString => EmptyString
  | String c s' => String (lower_char c) (lower s')
  end.

(** [s.endswith(suffix)] *)
Definition endswith (s suffix : string) : bool :=
  (String.length suffix <=? String.length s)%nat
  && String.eqb
       (substring (String.length s - String.length suffix)
                  (String.length suffix) s)
       suffix.

(** [s.startswith(p)] *)
Definition startswith (s p : string) : bool := String.prefix p s.

(** [s.replace(old, new)] for a non-empty [old]: every occurrence, left to
    right, without overlap. [skip] counts the characters of a match that
    are still to be dropped. *)
Fixpoint replace_from (old new s : string) (skip : nat) : string :=
  match s with
  | EmptyString => EmptyString
  | String c s' =>
      match skip with
      | S k => replace_from old new s' k
      | O =>
          if String.prefix old s
          then new +:+ replace_from old new s' (String.length old - 1)
          else String c (replace_from old new s' 0)
      end
  end.

(** With an empty [old], Python inserts [new] before every character and
    at the end. *)
Fixpoint intersperse (new s : string) : string :=
  match s with
  | EmptyString => new
  | String c s' => new +:+ String c (intersperse new s')
  end.

Definition replace (s old new : string) : string :=
  match old with
  | EmptyString => intersperse new s
  | _ => replace_from old new s 0
  end.

(** [str(n)] for an [int] *)
Definition str_of_int (n : Z) : string := NilZero.string_of_int (Z.to_int n).

(** [c * n] for a one-character string [c] *)
Fixpoint repeat_str (c : string) (n : nat) : string :=
  match n with
  | O => EmptyString
  | S k => c +:+ repeat_str c k
  end.

(** ** [os.path.join] (posixpath, two components) *)
Definition os_path_join (a b : string) : string :=
  if startswith b "/" then b
  else if String.eqb a "" || endswith a "/" then a +:+ b
  else a +:+ "/" +:+ b.

(** ** [float]: IEEE-754 binary64 *)

Definition prec : Z := 53.
Definition emax : Z := 1024.

(** [float(n)], correctly rounded *)
Definition float_of_int (n : Z) : spec_float := binary_normalize prec emax n 0 false.

(** [a / b] on two [int]s (true division); for the magnitudes that occur
    here both operands convert exactly and the quotient is rounded once. *)
Definition truediv (a b : Z) : spec_float :=
  SFdiv prec emax (float_of_int a) (float_of_int b).

Definition float_mul : spec_float -> spec_float -> spec_float := SFmul prec emax.

(** [int(x)]: truncation toward zero; [None] where Python raises
    (infinities and NaN). *)
Definition int_of_float (x : spec_float) : option Z :=
  match x with
  | S754_zero _ => Some 0
  | S754_finite s m e =>
      let a := if 0 <=? e then Z.shiftl (Zpos m) e else Z.shiftr (Zpos m) (- e) in
      Some (if s then - a else a)
  | S754_infinity _ | S754_nan => None
  end.

(** [f"{x:.1f}"]: one decimal place, the exact value rounded to nearest,
    ties to even. *)
Definition format_1f (x : spec_float) : string :=
  match x with
  | S754_zero s => if s then "-0.0" else "0.0"
  | S754_finite s m e =>
      let q :=
        if 0 <=? e then Zpos m * 2 ^ e * 10
        else
          let num := Zpos m * 10 in
          let den := 2 ^ (- e) in
          let q0 := num / den in
          let r := num mod den in
          if (den <? 2 * r) || ((den =? 2 * r) && Z.odd q0) then q0 + 1 else q0 in
      (if s then "-" else "") +:+ str_of_int (q / 10) +:+ "."
        +:+ str_of_int (q mod 10)
  | S754_infinity s => if s then "-inf" else "inf"
  | S754_nan => "nan"
  end.

Definition float_is_negative (x : spec_float) : bool :=
  SFltb x (S754_zero false).

Definition float_is_nan (x : spec_float) : bool :=
  match x with S754_nan => true | _ => false end.

(* ===================================================================== *)
(** * Exceptions and the effect monad *)
(* ===================================================================== *)

(** Python's hierarchy has [BaseException] at the root and [Exception]
    below it. [except Exception] catches the second kind only; a bare
    [except:] catches both. *)
Inductive exn_class : Type :=
| ExceptionClass          (* Exception and its subclasses *)
| BaseExceptionOnly.      (* SystemExit, KeyboardInterrupt, CancelledError, ... *)

Record exn : Type := Exn { exn_kind : exn_class; exn_str : string }.

Definition is_Exception (e : exn) : bool :=
  match exn_kind e with ExceptionClass => true | BaseExceptionOnly => false end.

Inductive result (A : Type) : Type :=
| Ok (a : A)
| Raise (e : exn).
Arguments Ok {A} a.
Arguments Raise {A} e.

Definition M (S A : Type) : Type := S -> S * result A.

#[global] Instance M_ret {S} : MRet (M S) := fun A a s => (s, Ok a).

#[global] Instance M_bind {S} : MBind (M S) := fun A B k c s =>
  match c s with
  | (s', Ok a) => k a s'
  | (s', Raise e) => (s', Raise e)
  end.

Definition raise {S A} (e : exn) : M S A := fun s => (s, Raise e).
Definition gets {S A} (f : S -> A) : M S A := fun s => (s, Ok (f s)).
Definition modify {S} (f : S -> S) : M S unit := fun s => (f s, Ok tt).

(** [try: c  except: h] *)
Definition try_except {S A} (c : M S A) (h : M S A) : M S A := fun s =>
  match c s with
  | (s', Ok a) => (s', Ok a)
  | (s', Raise _) => h s'
  end.

(** [try: c  except Exception as e: h e] *)
Definition try_except_Exception {S A} (c : M S A) (h : exn -> M S A) : M S A :=
  fun s =>
    match c s with
    | (s', Ok a) => (s', Ok a)
    | (s', Raise e) => if is_Exception e then h e s' else (s', Raise e)
    end.

(** [for x in xs: body x] *)
Fixpoint for_each {S A} (xs : list A) (body : A -> M S unit) : M S unit :=
  match xs with
  | [] => mret tt
  | x :: xs' => body x ;; for_each xs' body
  end.

(* ===================================================================== *)
(** * The environment: files, transport and the call log *)
(* ===================================================================== *)

(** A page is opaque content. *)
Definition page : Type := string.

Inductive file : Type :=
| PdfFile (pages : list page)
| OtherFile (content : string).

(** The part of [telegram.Document] the handlers read. [file_name] is
    optional in the Bot API. *)
Record Document : Type := { file_name : option string; file_id : string }.

(** The part of [telegram.Update] the handlers read:
    [update.message.from_user.id] and [update.message.document]. *)
Record Update : Type := { from_user_id : Z; document : option Document }.

(** A sent message, as returned by [reply_text]: its position in the
    call log. *)
Definition Message : Type := nat.

Inductive call : Type :=
| ReplyText (user : Z) (text : string)          (* update.message.reply_text(text) *)
| EditText (msg : Message) (text : string)      (* message.edit_text(text) *)
| ReplyDocument (user : Z) (path : string)      (* update.message.reply_document(open(path, "rb")) *)
| GetFile (id : string)                         (* doc.get_file() *)
| DownloadToDrive (id : string) (path : string) (* file.download_to_drive(path) *)
| Sleep (seconds : spec_float)                  (* time.sleep(seconds) *)
| PrintLine (line : string)                     (* print(...) *)
| OpenWrite (path : string)                     (* open(path, "wb") *)
| FitzSave (name : string) (path : string).     (* doc.save(path) on a document opened from name *)

Record env : Type := {
  files : gmap string file;   (* the backing store *)
  calls : list call;          (* calls made so far, oldest first *)
  clock : Z                   (* int(time.time()) *)
}.

Definition log_call (c : call) (w : env) : env :=
  {| files := files w; calls := calls w ++ [c]; clock := clock w |}.

Definition set_file (p : string) (f : file) (w : env) : env :=
  {| files := <[p := f]> (files w); calls := calls w; clock := clock w |}.

Definition FileNotFoundError (p : string) : exn :=
  Exn ExceptionClass ("[Errno 2] No such file or directory: '" +:+ p +:+ "'").

(** PyPDF2's [PdfReadError] and its relatives, with the text the library
    gives them. *)
Definition PdfReadError (m : string) : exn := Exn ExceptionClass m.

(** PyMuPDF's own [FileNotFoundError], a subclass of [RuntimeError], and
    its [FileDataError] for a file it cannot make a document of. *)
Definition fitz_FileNotFoundError (p : string) : exn :=
  Exn ExceptionClass ("no such file: '" +:+ p +:+ "'").

Definition FileDataError (m : string) : exn := Exn ExceptionClass m.

Definition ValueError (m : string) : exn := Exn ExceptionClass m.

Definition AttributeError (m : string) : exn := Exn ExceptionClass m.

(** [os.path.exists(p)] *)
Definition os_path_exists (p : string) : M env bool :=
  gets (fun w => bool_decide (is_Some (files w !! p))).

(* --------------------------------------------------------------------- *)
(** ** Concrete data for the examples *)
(* --------------------------------------------------------------------- *)

(** A transport on which nothing raises. *)
Definition no_faults (log : list call) (c : call) : option exn := None.

(** A transport on which every status update raises. *)
Definition updates_fail (log : list call) (c : call) : option exn :=
  match c with
  | EditText _ _ => Some (Exn ExceptionClass "Message to edit not found")
  | _ => None
  end.

(** What the two libraries make of a file that is no PDF: PyPDF2 finds no
    end-of-file marker; PyMuPDF opens a PNG image as a document of one
    page and refuses the rest. *)
Definition sample_reader (content : string) : string := "EOF marker not found".
Definition sample_fitz (path content : string) : list page + string :=
  if String.prefix "PNG" content then inl [content]
  else inr "Failed to open file".

Definition sample_remote (id : string) : file := PdfFile ["p1"; "p2"; "p3"].
Definition sample_getsize (f : file) : Z := 2048.
Definition sample_redact (keywords : list string) (p : page) : page := p.
Definition sample_output (user : Z) (file_list : list string) : string :=
  "pdf_files/merged.pdf".

Definition empty_env : env := {| files := ∅; calls := []; clock := 1700000000 |}.

(** A store with one three-page document. *)
Definition three_page_env : env :=
  {| files := {[ "in.pdf" := PdfFile ["a"; "b"; "c"] ]};
     calls := []; clock := 1700000000 |}.

(** A store with four one-page documents. *)
Definition four_file_env : env :=
  {| files := {[ "A.pdf" := PdfFile ["a"]; "B.pdf" := PdfFile ["b"];
                 "C.pdf" := PdfFile ["c"]; "X.pdf" := PdfFile ["x"] ]};
     calls := []; clock := 1700000000 |}.

(** A store with one text file under a name that ends in ".pdf". *)
Definition notes_env : env :=
  {| files := {[ "notes.pdf" := OtherFile "shopping list" ]};
     calls := []; clock := 1700000000 |}.

(** A redaction that leaves its mark on every page. *)
Definition sample_mark (keywords : list string) (p : page) : page :=
  p +:+ "#clean".

Definition sample_deflate (p : page) : page := p.
Definition sample_rotate (angle : Z) (p : page) : result page :=
  Ok (p +:+ "@" +:+ str_of_int angle).
Definition sample_render (dpi : Z) (p : page) : string := "png:" +:+ p.

(** A transport on which PyMuPDF's save raises. *)
Definition save_fails (log : list call) (c : call) : option exn :=
  match c with
  | FitzSave _ _ => Some (Exn ExceptionClass "cannot save")
  | _ => None
  end.

(** A transport on which the download raises. *)
Definition download_fails (log : list call) (c : call) : option exn :=
  match c with
  | DownloadToDrive _ _ => Some (Exn ExceptionClass "Timed out")
  | _ => None
  end.

(** A library that refuses to rotate the page "b". *)
Definition sample_rotate_picky (angle : Z) (p : page) : result page :=
  if String.eqb p "b" then Raise (Exn ExceptionClass "cannot rotate")
  else Ok (p +:+ "@" +:+ str_of_int angle).

(** Two uploads and a command of user 7. *)
Definition upload_a : Update :=
  {| from_user_id := 7;
     document := Some {| file_name := Some "a.pdf"; file_id := "f1" |} |}.
Definition upload_report : Update :=
  {| from_user_id := 7;
     document := Some {| file_name := Some "report.pdf"; file_id := "f2" |} |}.
Definition upload_REPORT : Update :=
  {| from_user_id := 7;
     document := Some {| file_name := Some "REPORT.PDF"; file_id := "f4" |} |}.
Definition command_7 : Update := {| from_user_id := 7; document := None |}.

(** A job that raises outside [Exception]. *)
Definition job_exit : M env unit :=
  fun w => (w, Raise (Exn BaseExceptionOnly "SystemExit")).

(** A job that returns and a job that raises an [Exception]. *)
Definition job_ok : M env unit := fun w => (log_call (PrintLine "done") w, Ok tt).

Section Bot.

Set Default Proof Using "Type".

(** What the outside world does. [faults log c] is the exception, if any,
    that the call [c] raises when the calls in [log] came before it. *)
Variable faults : list call -> call -> option exn.

(** The text of the exception [PdfReader] raises for a file of this
    content that is no PDF. *)
Variable reader_message : string -> string.

(** What [fitz.open] makes of a file, under this path and of this content,
    that is no PDF: the pages of the document PyMuPDF opens (it reads
    images and other formats as documents of their own), or the text of
    its [FileDataError]. *)
Variable fitz_document : string -> string -> list page + string.

(** The file a download of [file_id] stores. *)
Variable remote_file : string -> file.

(** [os.path.getsize] of a stored file. *)
Variable getsize : file -> Z.

(** The page PyMuPDF leaves after redacting the spans that contain one of
    the keywords, deleting the images and applying the redactions; the
    three [try/except: pass] blocks of [remove_watermark] keep whatever
    was achieved. *)
Variable redact : list string -> page -> page.

(** [WATERMARK_KEYWORDS]: the stripped, upper-cased, non-empty entries of
    the environment variable, computed once at import. *)
Variable WATERMARK_KEYWORDS : list string.

(** A call that may raise: it is logged, then [faults] decides. *)
Definition extern (c : call) : M env unit := fun w =>
  match faults (calls w) c with
  | Some e => (log_call c w, Raise e)
  | None => (log_call c w, Ok tt)
  end.

(** A call that is logged and returns. *)
Definition record (c : call) : M env unit := modify (log_call c).

(** [time.sleep(seconds)] refuses NaN when it converts the argument, and
    a negative argument after that. The lengths considered are within
    the range of the clock, 2^63 nanoseconds; beyond it the conversion
    raises [OverflowError] instead. *)
Definition time_sleep (seconds : spec_float) : M env unit :=
  if float_is_nan seconds
  then raise (ValueError "Invalid value NaN (not a number)")
  else if float_is_negative seconds
  then raise (ValueError "sleep length must be non-negative")
  else record (Sleep seconds).

(** [PdfReader(p).pages]: the pages of a PDF file, read when the reader
    is built. *)
Definition read_pdf (p : string) : M env (list page) := fun w =>
  match files w !! p with
  | Some (PdfFile ps) => (w, Ok ps)
  | Some (OtherFile content) => (w, Raise (PdfReadError (reader_message content)))
  | None => (w, Raise (FileNotFoundError p))
  end.

(** [fitz.open(p)]: PyMuPDF tests [os.path.exists] itself and raises its
    own exception for a missing file; a file that is no PDF it may still
    open. *)
Definition fitz_open (p : string) : M env (list page) := fun w =>
  match files w !! p with
  | Some (PdfFile ps) => (w, Ok ps)
  | Some (OtherFile content) =>
      match fitz_document p content with
      | inl ps => (w, Ok ps)
      | inr m => (w, Raise (FileDataError m))
      end
  | None => (w, Raise (fitz_FileNotFoundError p))
  end.

(** The exception, if any, of [doc.save(path)] on a document opened from
    [name]. PyMuPDF refuses a save onto the file the document was opened
    from unless it is incremental, before it writes anything; whether
    the save raises for another reason is the library's. *)
Definition save_raises (log : list call) (name path : string) : option exn :=
  if String.eqb path name
  then Some (ValueError "save to original must be incremental")
  else faults log (FitzSave name path).

(** [doc.save(path)]: the pages of the document, written under [path]. *)
Definition fitz_save (name path : string) (pages : list page) : M env unit :=
  fun w =>
    match save_raises (calls w) name path with
    | Some e => (log_call (FitzSave name path) w, Raise e)
    | None => (set_file path (PdfFile pages) (log_call (FitzSave name path) w),
               Ok tt)
    end.

(** [with open(path, "wb") as f: writer.write(f)] *)
Definition write_pdf (path : string) (pages : list page) : M env unit :=
  extern (OpenWrite path) ;; modify (set_file path (PdfFile pages)).

(** [int(x)] inside the monad *)
Definition to_int {S} (x : spec_float) : M S Z :=
  match int_of_float x with
  | Some n => mret n
  | None => raise (ValueError "cannot convert float to integer")
  end.

(** [range(lo, hi)] *)
Definition range (lo hi : Z) : list Z :=
  map (fun k => lo + Z.of_nat k) (seq 0 (Z.to_nat (hi - lo))).

(* --------------------------------------------------------------------- *)
(** ** Helpers *)
(* --------------------------------------------------------------------- *)

Definition WORK : string := "pdf_files".

(** The loop of [human_readable_size] over the remaining units. The first
    test compares the [int] itself and formats it as a float; both agree
    with the conversion done here at the start. *)
Fixpoint size_in_units (units : list string) (num_bytes : spec_float) : string :=
  match units with
  | [] => format_1f num_bytes +:+ " PB"
  | unit :: rest =>
      if SFltb num_bytes (float_of_int 1024)
      then format_1f num_bytes +:+ " " +:+ unit
      else size_in_units rest (SFdiv prec emax num_bytes (float_of_int 1024))
  end.

Definition human_readable_size (num_bytes : Z) : string :=
  size_in_units ["B"; "KB"; "MB"; "GB"; "TB"] (float_of_int num_bytes).

Definition get_page_count (pdf_path : string) : M env (option Z) :=
  try_except
    (pages ← read_pdf pdf_path; mret (Some (Z.of_nat (length pages))))
    (mret None).

Definition bar_length : Z := 20.

(** The two numbers of one progress step, as the source computes them. *)
Definition progress_filled (step total_steps : Z) : option Z :=
  int_of_float (truediv (bar_length * step) total_steps).

Definition progress_percent (step total_steps : Z) : option Z :=
  int_of_float (float_mul (truediv step total_steps) (float_of_int 100)).

Definition progress_text (action : string) (filled percent : Z) : string :=
  action +:+ ": ["
    +:+ repeat_str "█" (Z.to_nat filled)
    +:+ repeat_str "-" (Z.to_nat (bar_length - filled))
    +:+ "] " +:+ str_of_int percent +:+ "%".

(** The body of the loop. It runs for steps from 1 to [total_steps] only,
    so the divisor is never zero. *)
Definition progress_step (message : Message) (total_steps : Z)
    (action : string) (speed : spec_float) (step : Z) : M env unit :=
  filled ← to_int (truediv (bar_length * step) total_steps);
  percent ← to_int (float_mul (truediv step total_steps) (float_of_int 100));
  try_except (extern (EditText message (progress_text action filled percent)))
             (mret tt) ;;
  time_sleep speed.

Definition progress_bar (message : Message) (total_steps : Z)
    (action : string) (speed : spec_float) : M env unit :=
  for_each (range 1 (total_steps + 1))
           (progress_step message total_steps action speed).

(** The default arguments of [progress_bar]. *)
Definition default_total_steps : Z := 30.
Definition default_action : string := "Processing".
Definition default_speed : spec_float := truediv 8 100.   (* the literal 0.08 *)

(* --------------------------------------------------------------------- *)
(** ** PDF operations *)
(* --------------------------------------------------------------------- *)

Definition remove_watermark (input_pdf output_pdf : string)
    (keywords : option (list string)) : M env unit :=
  let keywords := match keywords with
                  | None => WATERMARK_KEYWORDS
                  | Some ks => ks
                  end in
  doc ← fitz_open input_pdf;
  let doc := map (redact keywords) doc in
  fitz_save input_pdf output_pdf doc.

(** The loop of [split_pdf]: [i] is the number of the next page. *)
Fixpoint split_pages (out_folder : string) (i : Z) (pages : list page)
    (out_paths : list string) : M env (list string) :=
  match pages with
  | [] => mret out_paths
  | p :: rest =>
      let out_path := os_path_join out_folder ("page_" +:+ str_of_int i +:+ ".pdf") in
      write_pdf out_path [p] ;;
      split_pages out_folder (i + 1) rest (out_paths ++ [out_path])
  end.

Definition split_pdf (input_pdf out_folder : string) : M env (list string) :=
  pages ← read_pdf input_pdf;
  split_pages out_folder 1 pages [].

(** The loop of [merge_pdfs]: [written] holds the pages added so far. *)
Fixpoint merge_pages (file_list : list string) (written : list page)
    : M env (list page) :=
  match file_list with
  | [] => mret written
  | f :: rest =>
      pages ← read_pdf f;
      merge_pages rest (written ++ pages)
  end.

Definition merge_pdfs (file_list : list string) (output_path : string)
    : M env unit :=
  written ← merge_pages file_list [];
  write_pdf output_path written.

(* --------------------------------------------------------------------- *)
(** ** Queue system *)
(* --------------------------------------------------------------------- *)

(** A job is any zero-argument callable; it acts on the environment and
    returns or raises. *)
Definition task : Type := M env unit.

(** [queue.Queue()]: unbounded, first in first out, with the counter
    behind [task_done]. *)
Record Queue : Type := { items : list task; unfinished_tasks : nat }.

(** Where the one thread started by [Thread(target=worker, daemon=True)]
    stands: blocked in or about to call [job_queue.get()], inside
    [task()], or ended by an exception that left the loop. *)
Inductive thread : Type :=
| Waiting
| Running (t : task)
| Terminated (e : exn).

(** What the worker did, oldest first. The source keeps no such record;
    it is kept here to state the order of execution. *)
Inductive job_event : Type :=
| Started (t : task)
| Returned (t : task)
| Caught (t : task) (e : exn)
| Escaped (t : task) (e : exn).

Record bot : Type := {
  world : env;
  user_data : gmap Z (gmap string string);   (* context.user_data, per user *)
  MERGE_QUEUE : list string;                 (* module-level list *)
  job_queue : Queue;                         (* module-level queue *)
  worker_thread : thread;
  history : list job_event
}.

Definition set_world (w : env) (st : bot) : bot :=
  {| world := w; user_data := user_data st; MERGE_QUEUE := MERGE_QUEUE st;
     job_queue := job_queue st; worker_thread := worker_thread st;
     history := history st |}.

Definition set_user_data (ud : gmap Z (gmap string string)) (st : bot) : bot :=
  {| world := world st; user_data := ud; MERGE_QUEUE := MERGE_QUEUE st;
     job_queue := job_queue st; worker_thread := worker_thread st;
     history := history st |}.

Definition set_worker (q : Queue) (th : thread) (evs : list job_event)
    (st : bot) : bot :=
  {| world := world st; user_data := user_data st; MERGE_QUEUE := MERGE_QUEUE st;
     job_queue := q; worker_thread := th; history := history st ++ evs |}.

(** Code that only touches the environment, run inside a handler. *)
Definition lift {A} (c : M env A) : M bot A := fun st =>
  let '(w, r) := c (world st) in (set_world w st, r).

(** [job_queue.put(t)] *)
Definition Queue_put (t : task) (q : Queue) : Queue :=
  {| items := items q ++ [t]; unfinished_tasks := S (unfinished_tasks q) |}.

Definition enqueue (task_callable : task) : M bot unit :=
  modify (fun st => set_worker (Queue_put task_callable (job_queue st))
                               (worker_thread st) [] st).

(** [task = job_queue.get()]: takes the head when there is one; with an
    empty queue the thread stays blocked ([None]: no step). *)
Definition worker_get (st : bot) : option bot :=
  match worker_thread st, items (job_queue st) with
  | Waiting, t :: rest =>
      Some (set_worker {| items := rest;
                          unfinished_tasks := unfinished_tasks (job_queue st) |}
                       (Running t) [Started t] st)
  | _, _ => None
  end.

(** [job_queue.task_done()]: raises [ValueError] when called more often
    than [put]; raised outside the [try], that would end the thread. *)
Definition task_done (evs : list job_event) (st : bot) : bot :=
  match unfinished_tasks (job_queue st) with
  | O => set_worker (job_queue st)
           (Terminated (ValueError "task_done() called too many times")) evs st
  | S n => set_worker {| items := items (job_queue st); unfinished_tasks := n |}
             Waiting evs st
  end.

(** The rest of one pass of the loop:
    [try: task()  except Exception as e: print("Error in job:", e)]
    and then [task_done()]. *)
Definition worker_call (st : bot) : option bot :=
  match worker_thread st with
  | Running t =>
      match t (world st) with
      | (w, Ok _) => Some (task_done [Returned t] (set_world w st))
      | (w, Raise e) =>
          if is_Exception e
          then Some (task_done [Caught t e]
                       (set_world (log_call (PrintLine ("Error in job: " +:+ exn_str e)) w) st))
          else Some (set_worker (job_queue st) (Terminated e) [Escaped t e]
                       (set_world w st))
      end
  | _ => None
  end.

(** One pass of [while True]. *)
Definition worker_iteration (st : bot) : option bot :=
  st' ← worker_get st; worker_call st'.

(** [worker()], observed for at most [fuel] passes; it stops earlier only
    when it blocks on an empty queue or the thread has ended. *)
Fixpoint worker (fuel : nat) (st : bot) : bot :=
  match fuel with
  | O => st
  | S k =>
      match worker_iteration st with
      | Some st' => worker k st'
      | None => st
      end
  end.

(** The process after import: empty queue, empty merge list, no user data,
    the worker thread started. *)
Definition start_bot (w : env) : bot :=
  {| world := w; user_data := ∅; MERGE_QUEUE := [];
     job_queue := {| items := []; unfinished_tasks := 0 |};
     worker_thread := Waiting; history := [] |}.

(** Producers and the worker interleave. A schedule lists, in the order
    they take effect, the calls of [enqueue], the two moves of the worker
    thread, and whatever else the handlers do to the environment in
    between (replies, downloads). *)
Inductive action : Type :=
| Put (t : task)
| Get
| Call
| Outside (f : env -> env).

Definition step (a : action) (st : bot) : option bot :=
  match a with
  | Put t => Some (fst (enqueue t st))
  | Get => worker_get st
  | Call => worker_call st
  | Outside f => Some (set_world (f (world st)) st)
  end.


(** The jobs a schedule submits, in order. *)
Fixpoint submitted (acts : list action) : list task :=
  match acts with
  | [] => []
  | Put t :: rest => t :: submitted rest
  | _ :: rest => submitted rest
  end.

(** The jobs the worker started, in order. *)
Fixpoint started (h : list job_event) : list task :=
  match h with
  | [] => []
  | Started t :: rest => t :: started rest
  | _ :: rest => started rest
  end.

(** The jobs whose payload has ended, in order. *)
Fixpoint ended (h : list job_event) : list task :=
  match h with
  | [] => []
  | Started _ :: rest => ended rest
  | Returned t :: rest | Caught t _ :: rest | Escaped t _ :: rest => t :: ended rest
  end.

(** Payloads in execution after the events of [h]: started and not ended. *)
Definition executing (h : list job_event) : Z :=
  Z.of_nat (length (started h)) - Z.of_nat (length (ended h)).

(* --------------------------------------------------------------------- *)
(** ** Transport *)
(* --------------------------------------------------------------------- *)

(** [await update.message.reply_text(text)]; the result is the message
    sent. *)
Definition reply_text (update : Update) (text : string) : M env Message :=
  msg ← gets (fun w => length (calls w));
  extern (ReplyText (from_user_id update) text) ;;
  mret msg.

(** [await update.message.reply_document(open(path, "rb"))] *)
Definition reply_document (update : Update) (path : string) : M env unit :=
  present ← os_path_exists path;
  if present : bool
  then extern (ReplyDocument (from_user_id update) path)
  else raise (FileNotFoundError path).

(** [context.user_data.get(key)] *)
Definition user_data_get (user : Z) (key : string) : M bot (option string) :=
  gets (fun st => user_data st !! user ≫= (.!! key)).

(** [context.user_data[key]] *)
Definition user_data_item (user : Z) (key : string) : M bot string :=
  v ← user_data_get user key;
  match v with
  | Some s => mret s
  | None => raise (Exn ExceptionClass ("KeyError: '" +:+ key +:+ "'"))
  end.

(** [context.user_data[key] = v] *)
Definition user_data_set (user : Z) (key v : string) : M bot unit :=
  modify (fun st =>
    set_user_data
      (<[user := <[key := v]> (default ∅ (user_data st !! user))]> (user_data st))
      st).

(* --------------------------------------------------------------------- *)
(** ** Telegram bot decorators *)
(* --------------------------------------------------------------------- *)

Definition no_pdf_text : string := "Please upload a PDF first.".

(** [not pdf or not os.path.exists(pdf)] *)
Definition pdf_absent (pdf : option string) : M bot bool :=
  match pdf with
  | None => mret true
  | Some p =>
      if String.eqb p "" then mret true
      else present ← lift (os_path_exists p); mret (negb present)
  end.

Definition require_pdf (func : Update -> M bot unit) (update : Update)
    : M bot unit :=
  pdf ← user_data_get (from_user_id update) "last_pdf";
  absent ← pdf_absent pdf;
  if absent : bool
  then lift (reply_text update no_pdf_text) ;; mret tt
  else func update.

(* --------------------------------------------------------------------- *)
(** ** Handlers *)
(* --------------------------------------------------------------------- *)

Definition newline : string := String (ascii_of_nat 10) EmptyString.

(** [os.path.basename] *)
Fixpoint has_slash (p : string) : bool :=
  match p with
  | EmptyString => false
  | String c p' => Ascii.eqb c "/" || has_slash p'
  end.

Fixpoint os_path_basename (p : string) : string :=
  match p with
  | EmptyString => EmptyString
  | String c p' => if has_slash p then os_path_basename p' else p
  end.

Definition str_of_pages (pages : option Z) : string :=
  match pages with
  | None => "None"
  | Some n => str_of_int n
  end.

Definition not_pdf_text : string := "Please upload a PDF file.".
Definition downloading_text : string := "Downloading your PDF...".

Definition received_text (pages : option Z) (size : Z) (local_path : string)
    : string :=
  "📄 PDF received!" +:+ newline
    +:+ "📝 Pages: " +:+ str_of_pages pages +:+ newline
    +:+ "💾 Size: " +:+ human_readable_size size +:+ newline
    +:+ "Saved as: `" +:+ os_path_basename local_path +:+ "`".

(** [f"{update.message.from_user.id}_{int(time.time())}_{doc.file_name}"]
    joined to [WORK]. *)
Definition upload_path (user now : Z) (name : string) : string :=
  os_path_join WORK (str_of_int user +:+ "_" +:+ str_of_int now +:+ "_" +:+ name).

(** [{doc.file_name}] inside an f-string *)
Definition str_of_name (name : option string) : string :=
  match name with
  | None => "None"
  | Some n => n
  end.

(** [not doc or not doc.file_name.lower().endswith(".pdf")] *)
Definition not_a_pdf (doc : option Document) : M bot bool :=
  match doc with
  | None => mret true
  | Some d =>
      match file_name d with
      | None => raise (AttributeError "'NoneType' object has no attribute 'lower'")
      | Some name => mret (negb (endswith (lower name) ".pdf"))
      end
  end.

(** [os.path.getsize(p)] *)
Definition os_path_getsize (p : string) : M env Z := fun w =>
  match files w !! p with
  | Some f => (w, Ok (getsize f))
  | None => (w, Raise (FileNotFoundError p))
  end.

(** [file = await doc.get_file(); await file.download_to_drive(path)] *)
Definition download (d : Document) (path : string) : M env unit :=
  extern (GetFile (file_id d)) ;;
  extern (DownloadToDrive (file_id d) path) ;;
  modify (set_file path (remote_file (file_id d))).

Definition handle_pdf_upload (update : Update) : M bot unit :=
  let doc := document update in
  rejected ← not_a_pdf doc;
  match rejected, doc with
  | false, Some d =>
      now ← gets (fun st => clock (world st));
      let local_path := upload_path (from_user_id update) now
                                    (str_of_name (file_name d)) in
      lift (reply_text update downloading_text) ;;
      lift (download d local_path) ;;
      user_data_set (from_user_id update) "last_pdf" local_path ;;
      pages ← lift (get_page_count local_path);
      size ← lift (os_path_getsize local_path);
      lift (reply_text update (received_text pages size local_path)) ;;
      mret tt
  | _, _ => lift (reply_text update not_pdf_text) ;; mret tt
  end.

(** The payload built by [cmd_clean]: the coroutine [task], run to its
    end by [asyncio.run]. *)
Definition clean_task (update : Update) (pdf out : string) : task :=
  msg ← reply_text update "Cleaning PDF...";
  progress_bar msg 8 "Cleaning" default_speed ;;
  remove_watermark pdf out None ;;
  extern (EditText msg "✔ Cleaned! Sending file...") ;;
  reply_document update out.

(** The output path of [/clean]. *)
Definition clean_output (pdf : string) : string := replace pdf ".pdf" "_clean.pdf".

(** The body of [cmd_clean], below the decorator. *)
Definition cmd_clean_body (update : Update) : M bot unit :=
  pdf ← user_data_item (from_user_id update) "last_pdf";
  let out := clean_output pdf in
  enqueue (clean_task update pdf out).

Definition cmd_clean : Update -> M bot unit := require_pdf cmd_clean_body.

(* --------------------------------------------------------------------- *)
(** ** The merge sub-flow *)
(* --------------------------------------------------------------------- *)

(** The source declares the operation [merge_pdfs] and, at module level,
    a list [MERGE_QUEUE] that none of its code reads or writes; it
    announces [/merge] and [/done] in the help text and registers no
    handler for either. The definitions below supply the merge sets and
    the two handlers from the specification. *)

(** The output destination and the status texts of the merge job. *)
Variable merge_output : Z -> list string -> string.
Variable merge_started_text merge_done_text : string.

(** Modelled from the spec: the merge sets, absent from the source.
    "Session: per-user/chat persistent reference to their current document
    and merge-in-progress set"; "Merge set: ordered, session-scoped
    accumulation of documents awaiting a finalize-merge command". The
    process, and beside it one ordered list for each session. *)
Record merging : Type := {
  process : bot;
  merge_sets : gmap Z (list string)
}.

Definition merge_set (user : Z) (m : merging) : list string :=
  default [] (merge_sets m !! user).

Definition set_merge_set (user : Z) (l : list string) (m : merging) : merging :=
  {| process := process m; merge_sets := <[user := l]> (merge_sets m) |}.

(** Code of the process, run inside a merge handler. *)
Definition in_process {A} (c : M bot A) : M merging A := fun m =>
  let '(st, r) := c (process m) in
  ({| process := st; merge_sets := merge_sets m |}, r).

(** Modelled from the spec: the recording step of the [/merge] handler,
    absent from the source. "Accumulates multiple uploaded documents into
    an ordered list (a merge set) associated with the session rather than
    immediately processing": the document is appended to the merge set of
    the session the update comes from. *)
Definition merge_add (update : Update) (pdf : string) : M merging unit :=
  let user := from_user_id update in
  modify (fun m => set_merge_set user (merge_set user m ++ [pdf]) m).

(** Modelled from the spec: the payload of the merge job, absent from the
    source. "(a) send started status, (b) run Progress Reporter, (c) invoke
    the corresponding Operation Library function with input/output refs,
    (d) send completion status with the output artifact". *)
Definition merge_task (update : Update) (file_list : list string)
    (out : string) : task :=
  msg ← reply_text update merge_started_text;
  progress_bar msg default_total_steps default_action default_speed ;;
  merge_pdfs file_list out ;;
  extern (EditText msg merge_done_text) ;;
  reply_document update out.

(** Modelled from the spec: the [/done] handler, absent from the source.
    "A separate finalize command drains that ordered list, builds one Job
    invoking the merge operation over the whole sequence, and clears the
    set." *)
Definition cmd_done (update : Update) : M merging unit :=
  let user := from_user_id update in
  file_list ← gets (merge_set user);
  modify (set_merge_set user []) ;;
  in_process (enqueue (merge_task update file_list
                         (merge_output user file_list))).

(** A recording: which session records which document. *)
Definition recording : Type := (Z * string)%type.

Definition update_of (user : Z) : Update :=
  {| from_user_id := user; document := None |}.

(** Carry out a list of recordings, in order. *)
Fixpoint record_all (rs : list recording) (m : merging) : merging :=
  match rs with
  | [] => m
  | (user, pdf) :: rest => record_all rest (fst (merge_add (update_of user) pdf m))
  end.

(** The process after import, no session having recorded anything. *)
Definition start_merging (w : env) : merging :=
  {| process := start_bot w; merge_sets := ∅ |}.

(** The documents a session recorded, in order. *)
Definition recorded_by (user : Z) (rs : list recording) : list string :=
  map snd (filter (fun r => fst r = user) rs).

(* --------------------------------------------------------------------- *)
(** ** Vocabulary of the statements *)
(* --------------------------------------------------------------------- *)

(** [s] ends with [suffix] up to letter case. *)
Definition ends_with_nocase (s suffix : string) : Prop :=
  exists pre suf, s = pre +:+ suf /\ lower suf = lower suffix.

(** [old] occurs somewhere in [s]. *)
Fixpoint occurs (old s : string) : bool :=
  match s with
  | EmptyString => String.prefix old EmptyString
  | String _ s' => String.prefix old s || occurs old s'
  end.

(** No character of [s] satisfies [p]. *)
Fixpoint free_of (p : ascii -> bool) (s : string) : bool :=
  match s with
  | EmptyString => true
  | String c s' => negb (p c) && free_of p s'
  end.

Definition is_underscore (c : ascii) : bool := Ascii.eqb c "_".
Definition is_dot (c : ascii) : bool := Ascii.eqb c ".".
Definition is_slash (c : ascii) : bool := Ascii.eqb c "/".

(** The session's recorded reference, [user_data["last_pdf"]]. *)
Definition last_pdf (user : Z) (st : bot) : option string :=
  user_data st !! user ≫= (.!! "last_pdf").

(** The session's current document as [require_pdf] reads it: the recorded
    reference, when it is a non-empty path of an existing file. *)
Definition get_current (user : Z) (st : bot) : option string :=
  match last_pdf user st with
  | Some p =>
      if String.eqb p "" then None
      else if bool_decide (is_Some (files (world st) !! p)) then Some p
      else None
  | None => None
  end.

(** The text of the update at [step]. *)
Definition rendered (action : string) (total_steps step : Z) : string :=
  progress_text action (default 0 (progress_filled step total_steps))
                       (default 0 (progress_percent step total_steps)).

(** Both [int(...)] conversions of every step are defined. *)
Definition renders (total_steps : Z) : bool :=
  forallb (fun step => bool_decide (is_Some (progress_filled step total_steps))
                       && bool_decide (is_Some (progress_percent step total_steps)))
          (range 1 (total_steps + 1)).

(** The calls of a whole progress run: per step one update, one pause. *)
Definition progress_calls (message : Message) (total_steps : Z)
    (action : string) (speed : spec_float) : list call :=
  flat_map (fun step => [EditText message (rendered action total_steps step);
                         Sleep speed])
           (range 1 (total_steps + 1)).




(** What holds of the queue, the thread and the record of events after
    the schedule [acts]. *)
Definition worker_inv (acts : list action) (st : bot) : Prop :=
  started (history st) ++ items (job_queue st) = submitted acts
  /\ match worker_thread st with
     | Waiting =>
         started (history st) = ended (history st)
         /\ unfinished_tasks (job_queue st) = length (items (job_queue st))
     | Running t =>
         started (history st) = ended (history st) ++ [t]
         /\ unfinished_tasks (job_queue st) = S (length (items (job_queue st)))
     | Terminated e =>
         started (history st) = ended (history st)
         /\ exists (t : task) (w w' : env),
              In t (started (history st))
              /\ t w = (w', Raise e) /\ is_Exception e = false
     end
  /\ forall h1 h2, history st = h1 ++ h2 -> 0 <= executing h1 <= 1.

(** The pages [PdfReader] finds under a path. *)
Definition pages_of (w : env) (path : string) : list page :=
  match files w !! path with
  | Some (PdfFile ps) => ps
  | _ => []
  end.

(** The environment after the calls [cs] were logged. *)
Definition log_calls (cs : list call) (w : env) : env :=
  fold_left (fun w c => log_call c w) cs w.


(** [page_1.pdf] to [page_n.pdf] under [out_folder]. *)
Definition page_path (out_folder : string) (i : Z) : string :=
  os_path_join out_folder ("page_" +:+ str_of_int i +:+ ".pdf").

Definition page_paths (out_folder : string) (n : Z) : list string :=
  map (page_path out_folder) (range 1 (n + 1)).

(* --------------------------------------------------------------------- *)
(** ** The remaining PDF operations *)
(* --------------------------------------------------------------------- *)

(** What PyMuPDF leaves of a page when it saves with
    [garbage=4, deflate=True, clean=True]. *)
Variable deflate : page -> page.

(** [page.rotate(angle)] of PyPDF2: the rotated page, or the exception
    the library raises for this angle and page. *)
Variable rotate_page : Z -> page -> result page.

(** The PNG that [page.get_pixmap(dpi=dpi)] renders. *)
Variable render : Z -> page -> string.

(** [fitz.open] comes before the [try]; the bare [except:] takes every
    exception of the save; [finally: doc.close()] touches nothing that is
    modelled. *)
Definition compress_pdf (input_pdf output_pdf : string) : M env unit :=
  doc ← fitz_open input_pdf;
  try_except
    (fitz_save input_pdf output_pdf (map deflate doc))
    (reader ← read_pdf input_pdf;
     write_pdf output_pdf reader).

(** The loop of [rotate_pdf]: [written] holds the pages added so far. *)
Fixpoint rotate_pages (angle : Z) (pages written : list page)
    : M env (list page) :=
  match pages with
  | [] => mret written
  | p :: rest =>
      match rotate_page angle p with
      | Ok p' => rotate_pages angle rest (written ++ [p'])
      | Raise e => raise e
      end
  end.

Definition rotate_pdf (input_pdf output_pdf : string) (angle : Z)
    : M env unit :=
  pages ← read_pdf input_pdf;
  written ← rotate_pages angle pages [];
  write_pdf output_pdf written.

Definition default_angle : Z := 90.

(** The loop of [extract_images]: [i] is the number of the next page;
    [pix.save(img_path)] opens the path for writing. *)
Fixpoint extract_pages (out_folder : string) (dpi i : Z) (pages : list page)
    (out_files : list string) : M env (list string) :=
  match pages with
  | [] => mret out_files
  | p :: rest =>
      let img_path := os_path_join out_folder ("page_" +:+ str_of_int i +:+ ".png") in
      extern (OpenWrite img_path) ;;
      modify (set_file img_path (OtherFile (render dpi p))) ;;
      extract_pages out_folder dpi (i + 1) rest (out_files ++ [img_path])
  end.

Definition extract_images (input_pdf out_folder : string) (dpi : Z)
    : M env (list string) :=
  doc ← fitz_open input_pdf;
  extract_pages out_folder dpi 1 doc [].

Definition default_dpi : Z := 150.

(** What [os.path.join] puts in front of a relative name: the folder,
    with a separator unless it is empty or ends in one. *)
Definition folder_prefix (a : string) : string :=
  if String.eqb a "" || endswith a "/" then a else a +:+ "/".

(** [page_1.png] to [page_n.png] under [out_folder]. *)
Definition image_path (out_folder : string) (i : Z) : string :=
  os_path_join out_folder ("page_" +:+ str_of_int i +:+ ".png").

Definition image_paths (out_folder : string) (n : Z) : list string :=
  map (image_path out_folder) (range 1 (n + 1)).

(** The number of pages [get_page_count] reports for what is stored
    under a path. *)
Definition page_count_of (w : env) (path : string) : option Z :=
  match files w !! path with
  | Some (PdfFile ps) => Some (Z.of_nat (length ps))
  | _ => None
  end.

(** The pages [get_page_count] reports for a stored file. *)
Definition pages_in (f : file) : option Z :=
  match f with
  | PdfFile ps => Some (Z.of_nat (length ps))
  | OtherFile _ => None
  end.

(** The sum of the page counts of the readable files of a list. *)
Definition total_pages (w : env) (file_list : list string) : Z :=
  fold_right Z.add 0 (map (fun f => default 0 (page_count_of w f)) file_list).

(** The exception [PdfReader] raises for a path that holds no PDF. *)
Definition read_error (w : env) (path : string) : exn :=
  match files w !! path with
  | Some (OtherFile content) => PdfReadError (reader_message content)
  | _ => FileNotFoundError path
  end.

(** The exception, if any, that [fitz.open] raises for a path. *)
Definition open_error (w : env) (path : string) : option exn :=
  match files w !! path with
  | Some (PdfFile _) => None
  | Some (OtherFile content) =>
      match fitz_document path content with
      | inl _ => None
      | inr m => Some (FileDataError m)
      end
  | None => Some (fitz_FileNotFoundError path)
  end.

(** The environment the worker leaves after running one job: the job's
    own effects and, when the job raised, the printed line. *)
Definition after_job (w : env) (t : task) : env :=
  match t w with
  | (w', Ok _) => w'
  | (w', Raise e) => log_call (PrintLine ("Error in job: " +:+ exn_str e)) w'
  end.

(* ===================================================================== *)
(** * Strings *)
(* ===================================================================== *)

Lemma append_cons (x : ascii) (a b : string) :
  String x a +:+ b = String x (a +:+ b).
Proof. reflexivity. Qed.

Lemma append_nil_l (a : string) : "" +:+ a = a.
Proof. reflexivity. Qed.

Lemma append_assoc (a b c : string) : (a +:+ b) +:+ c = a +:+ (b +:+ c).
Proof.
  induction a as [|x a IH]; [reflexivity|].
  rewrite !append_cons. now rewrite IH.
Qed.

Lemma append_nil_r (a : string) : a +:+ "" = a.
Proof.
  induction a as [|x a IH]; [reflexivity|].
  rewrite append_cons. now rewrite IH.
Qed.

Lemma length_append (a b : string) :
  String.length (a +:+ b) = (String.length a + String.length b)%nat.
Proof.
  induction a as [|x a IH]; [reflexivity|].
  rewrite append_cons. simpl. now rewrite IH.
Qed.

Lemma prefix_spec (p s : string) :
  String.prefix p s = true <-> exists r, s = p +:+ r.
Proof.
  revert s; induction p as [|x p IH]; intros s.
  - destruct s; simpl; split; eauto.
  - destruct s as [|y s]; simpl.
    + split; [discriminate | intros [r Hr]; discriminate].
    + destruct (ascii_dec x y) as [->|Hne].
      * rewrite IH. split; intros [r Hr]; exists r.
        -- rewrite append_cons. now subst.
        -- rewrite append_cons in Hr. now injection Hr.
      * split; [discriminate|].
        intros [r Hr]. rewrite append_cons in Hr. injection Hr; intros; congruence.
Qed.

Lemma substring_all (b : string) : substring 0 (String.length b) b = b.
Proof. induction b as [|y b IHb]; simpl; [reflexivity | now rewrite IHb]. Qed.

Lemma substring_append_r (a b : string) :
  substring (String.length a) (String.length b) (a +:+ b) = b.
Proof.
  induction a as [|x a IH]; [|rewrite append_cons; exact IH].
  rewrite append_nil_l. apply substring_all.
Qed.

Lemma substring_split (s : string) (n : nat) :
  (n <= String.length s)%nat ->
  s = substring 0 n s +:+ substring n (String.length s - n) s.
Proof.
  revert n; induction s as [|x s IH]; intros n Hn; simpl in Hn.
  - destruct n; [reflexivity | lia].
  - destruct n as [|n].
    + change (substring 0 0 (String x s)) with "".
      rewrite append_nil_l, Nat.sub_0_r. symmetry. apply substring_all.
    + simpl. rewrite append_cons. f_equal. apply IH; lia.
Qed.

Lemma endswith_spec (s suffix : string) :
  endswith s suffix = true <-> exists pre, s = pre +:+ suffix.
Proof.
  unfold endswith. rewrite andb_true_iff, Nat.leb_le, String.eqb_eq. split.
  - intros [Hle Hsub].
    exists (substring 0 (String.length s - String.length suffix) s).
    pose proof (substring_split s (String.length s - String.length suffix)
                  ltac:(lia)) as E.
    replace (String.length s - (String.length s - String.length suffix))%nat
      with (String.length suffix) in E by lia.
    rewrite Hsub in E. exact E.
  - intros [pre ->]. rewrite length_append. split; [lia|].
    replace (String.length pre + String.length suffix - String.length suffix)%nat
      with (String.length pre) by lia.
    apply substring_append_r.
Qed.

Lemma lower_append (a b : string) : lower (a +:+ b) = lower a +:+ lower b.
Proof.
  induction a as [|x a IH]; [reflexivity|].
  rewrite append_cons. simpl. rewrite append_cons. now rewrite IH.
Qed.

Lemma lower_split (s a b : string) :
  lower s = a +:+ b ->
  exists s1 s2, s = s1 +:+ s2 /\ lower s1 = a /\ lower s2 = b.
Proof.
  revert s; induction a as [|x a IH]; intros s H.
  - exists "", s. auto.
  - rewrite append_cons in H.
    destruct s as [|y s]; simpl in H; [discriminate|].
    injection H; intros Hs Hx.
    destruct (IH s Hs) as (s1 & s2 & -> & H1 & H2).
    exists (String y s1), s2. rewrite append_cons. simpl. now rewrite Hx, H1.
Qed.

(** The suffix test of the upload handler is the case-insensitive one. *)
Lemma endswith_lower_spec (name suffix : string) :
  lower suffix = suffix ->
  endswith (lower name) suffix = true <-> ends_with_nocase name suffix.
Proof.
  intros Hsuf. rewrite endswith_spec. unfold ends_with_nocase. split.
  - intros [pre H]. destruct (lower_split _ _ _ H) as (s1 & s2 & -> & _ & H2).
    exists s1, s2. split; [reflexivity | congruence].
  - intros (pre & suf & -> & H). exists (lower pre).
    rewrite lower_append. congruence.
Qed.

Lemma free_of_append (p : ascii -> bool) (a b : string) :
  free_of p (a +:+ b) = free_of p a && free_of p b.
Proof.
  induction a as [|x a IH]; [reflexivity|].
  rewrite append_cons. simpl. rewrite IH. now rewrite andb_assoc.
Qed.

Lemma free_of_uint (p : ascii -> bool) (u : uint) :
  free_of p "-0123456789" = true ->
  free_of p (NilEmpty.string_of_uint u) = true.
Proof.
  intros H. simpl in H. rewrite !andb_true_iff in H.
  destruct H as (_ & H0 & H1 & H2 & H3 & H4 & H5 & H6 & H7 & H8 & H9 & _).
  induction u; simpl; rewrite ?IHu, ?andb_true_r; auto.
Qed.

(** A printed [int] holds digits and at most a sign. *)
Lemma str_of_int_free (p : ascii -> bool) (n : Z) :
  free_of p "-0123456789" = true -> free_of p (str_of_int n) = true.
Proof.
  intros H. pose proof (free_of_uint p) as Hu.
  simpl in H. apply andb_true_iff in H as [Hm H].
  unfold str_of_int, NilZero.string_of_int, NilZero.string_of_uint.
  destruct (Z.to_int n) as [u|u]; destruct u; simpl;
    rewrite ?Hm, ?Hu, ?andb_true_r; simpl; rewrite ?Hm, ?H; auto.
  all: rewrite !andb_true_iff in H;
    repeat match goal with A : _ /\ _ |- _ => destruct A end; assumption.
Qed.

Lemma occurs_free_prefix (old' a b : string) :
  free_of is_dot a = true ->
  occurs (String "." old') (a +:+ b) = occurs (String "." old') b.
Proof.
  induction a as [|x a IH]; intros H; [reflexivity|].
  rewrite append_cons. simpl in H. apply andb_true_iff in H as [Hx Ha].
  cbn [occurs String.prefix].
  destruct (ascii_dec "." x) as [<-|_]; [discriminate|].
  simpl. now apply IH.
Qed.

Lemma replace_from_absent (old new s : string) :
  occurs old s = false -> replace_from old new s 0 = s.
Proof.
  induction s as [|x s IH]; intros H; [reflexivity|].
  cbn [occurs] in H. apply orb_false_iff in H as [Hp Ho].
  cbn [replace_from]. rewrite Hp. now rewrite IH.
Qed.

Lemma startswith_slash_free (a r : string) :
  free_of is_slash a = true ->
  startswith (a +:+ "_" +:+ r) "/" = false.
Proof.
  destruct a as [|x a]; intros H; [reflexivity|].
  rewrite append_cons. simpl in H. apply andb_true_iff in H as [Hx _].
  unfold startswith. cbn [String.prefix].
  destruct (ascii_dec "/" x) as [<-|_]; [discriminate | reflexivity].
Qed.

Lemma upload_path_eq (user now : Z) (name : string) :
  upload_path user now name
  = ("pdf_files/" +:+ str_of_int user +:+ "_" +:+ str_of_int now +:+ "_")
      +:+ name.
Proof.
  unfold upload_path, os_path_join.
  rewrite startswith_slash_free by now apply str_of_int_free.
  change (String.eqb WORK "" || endswith WORK "/") with false. cbv iota.
  unfold WORK. rewrite !append_assoc. reflexivity.
Qed.

(** [/clean] leaves a path without a lowercase ".pdf" as it is. *)
Lemma clean_output_same (user now : Z) (name : string) :
  occurs ".pdf" name = false ->
  clean_output (upload_path user now name) = upload_path user now name.
Proof.
  intros H. unfold clean_output, replace.
  apply replace_from_absent. rewrite upload_path_eq.
  rewrite occurs_free_prefix; [exact H|].
  rewrite !free_of_append, !(str_of_int_free is_dot) by reflexivity.
  reflexivity.
Qed.

(* ===================================================================== *)
(** * The upload handler *)
(* ===================================================================== *)

Ltac run_monad :=
  unfold mbind, M_bind, mret, M_ret, lift, gets, modify, raise; simpl.

(** C9. An uploaded document whose file name does not end with ".pdf" up
    to letter case is answered with the rejection message and nothing
    else happens: the one call made is that reply, so nothing is
    downloaded, the files are untouched, and the session's recorded
    reference is what it was. *)
Theorem upload_rejects_other_names (update : Update) (d : Document)
    (name : string) (st : bot) :
  document update = Some d ->
  file_name d = Some name ->
  ~ ends_with_nocase name ".pdf" ->
  let st' := fst (handle_pdf_upload update st) in
  calls (world st')
    = calls (world st) ++ [ReplyText (from_user_id update) not_pdf_text]
  /\ files (world st') = files (world st)
  /\ user_data st' = user_data st
  /\ last_pdf (from_user_id update) st' = last_pdf (from_user_id update) st
  /\ job_queue st' = job_queue st.
Proof.
  intros Hdoc Hname Hno.
  assert (Hend : endswith (lower name) ".pdf" = false).
  { destruct (endswith (lower name) ".pdf") eqn:E; [|reflexivity].
    exfalso. apply Hno. now apply endswith_lower_spec. }
  unfold handle_pdf_upload, not_a_pdf. rewrite Hdoc, Hname, Hend.
  run_monad. unfold reply_text, extern. run_monad.
  destruct (faults _ _); simpl; auto.
Qed.

(** A document without a file name: [.lower()] raises before anything
    is sent. *)
Lemma upload_without_name_raises (update : Update) (d : Document) (st : bot) :
  document update = Some d ->
  file_name d = None ->
  handle_pdf_upload update st
  = (st, Raise (AttributeError "'NoneType' object has no attribute 'lower'")).
Proof.
  intros Hdoc Hname. unfold handle_pdf_upload, not_a_pdf.
  rewrite Hdoc, Hname. reflexivity.
Qed.

Lemma upload_path_nonempty (user now : Z) (name : string) :
  String.eqb (upload_path user now name) "" = false.
Proof. rewrite upload_path_eq. reflexivity. Qed.

Lemma last_pdf_set (user : Z) (p : string) (st : bot) :
  last_pdf user (fst (user_data_set user "last_pdf" p st)) = Some p.
Proof.
  unfold last_pdf, user_data_set. run_monad.
  rewrite lookup_insert_eq. simpl. now rewrite lookup_insert_eq.
Qed.

(** What [require_pdf] tests is whether [get_current] is absent. *)
Lemma pdf_absent_get_current (user : Z) (st : bot) :
  pdf_absent (last_pdf user st) st
  = (st, Ok (bool_decide (get_current user st = None))).
Proof.
  unfold pdf_absent, get_current.
  destruct (last_pdf user st) as [p|]; [|reflexivity].
  destruct (String.eqb p ""); [reflexivity|].
  run_monad. unfold os_path_exists. run_monad.
  destruct st as [w ud mq q th h]; simpl.
  destruct (bool_decide (is_Some (files w !! p))); reflexivity.
Qed.

Lemma require_pdf_present (func : Update -> M bot unit) (update : Update)
    (st : bot) (p : string) :
  get_current (from_user_id update) st = Some p ->
  require_pdf func update st = func update st.
Proof.
  intros H. unfold require_pdf, user_data_get.
  unfold mbind at 1 2. unfold M_bind at 1 2. unfold gets at 1.
  fold (last_pdf (from_user_id update) st).
  pose proof (pdf_absent_get_current (from_user_id update) st) as E.
  rewrite H in E. rewrite E. reflexivity.
Qed.

Lemma require_pdf_absent (func : Update -> M bot unit) (update : Update)
    (st : bot) :
  get_current (from_user_id update) st = None ->
  require_pdf func update st
  = (lift (reply_text update no_pdf_text) ;; mret tt) st.
Proof.
  intros H. unfold require_pdf, user_data_get.
  unfold mbind at 1 2. unfold M_bind at 1 2. unfold gets at 1.
  fold (last_pdf (from_user_id update) st).
  pose proof (pdf_absent_get_current (from_user_id update) st) as E.
  rewrite H in E. rewrite E. reflexivity.
Qed.

(* ===================================================================== *)
(** * The document store *)
(* ===================================================================== *)

(** C3. When the session has no current document (nothing recorded, or
    the recorded file is gone), a command behind [require_pdf] enqueues
    nothing, makes exactly one call, the reply with the precondition
    message, and its body is not entered: the outcome is the same for
    every body. *)
Theorem require_pdf_without_document (func : Update -> M bot unit)
    (update : Update) (st : bot) :
  (last_pdf (from_user_id update) st = None
   \/ exists p, last_pdf (from_user_id update) st = Some p
                /\ files (world st) !! p = None) ->
  let st' := fst (require_pdf func update st) in
  job_queue st' = job_queue st
  /\ calls (world st')
     = calls (world st) ++ [ReplyText (from_user_id update) no_pdf_text]
  /\ (forall func' : Update -> M bot unit,
        require_pdf func' update st = require_pdf func update st)
  /\ user_data st' = user_data st
  /\ history st' = history st.
Proof.
  intros H.
  assert (Habs : get_current (from_user_id update) st = None).
  { unfold get_current. destruct H as [-> | (p & -> & Hp)]; [reflexivity|].
    rewrite Hp. destruct (String.eqb p ""); [reflexivity|].
    rewrite bool_decide_eq_false_2; [reflexivity|]. now intros [x Hx]. }
  split; [|split; [|split; [|split]]].
  3: { intros func'. now rewrite !require_pdf_absent. }
  all: rewrite require_pdf_absent by exact Habs.
  all: run_monad; unfold reply_text, extern; run_monad.
  all: destruct (faults _ _); reflexivity.
Qed.

Lemma bind_ok {S A B} (c : M S A) (k : A -> M S B) (s s' : S) (b : B) :
  (c ≫= k) s = (s', Ok b) ->
  exists a s1, c s = (s1, Ok a) /\ k a s1 = (s', Ok b).
Proof.
  unfold mbind, M_bind. destruct (c s) as [s1 [a|e]]; [eauto | discriminate].
Qed.

Lemma lift_ok {A} (c : M env A) (st st' : bot) (a : A) :
  lift c st = (st', Ok a) ->
  exists w, c (world st) = (w, Ok a) /\ st' = set_world w st.
Proof.
  unfold lift. destruct (c (world st)) as [w r]. intros [= <- ->]. eauto.
Qed.

Lemma extern_ok (c : call) (w w' : env) (u : unit) :
  extern c w = (w', Ok u) -> w' = log_call c w.
Proof. unfold extern. destruct (faults _ _); now intros [=]. Qed.

Lemma reply_text_ok (update : Update) (text : string) (w w' : env)
    (m : Message) :
  reply_text update text w = (w', Ok m) ->
  w' = log_call (ReplyText (from_user_id update) text) w.
Proof.
  intros H. apply bind_ok in H as (n & w1 & [= <- <-] & H).
  apply bind_ok in H as (u & w2 & H & [= <- <-]).
  now apply extern_ok in H.
Qed.

Lemma bind_run {S A B} (c : M S A) (k : A -> M S B) (s s1 : S) (a : A) :
  c s = (s1, Ok a) -> (c ≫= k) s = k a s1.
Proof. unfold mbind, M_bind. now intros ->. Qed.

Lemma bind_raise {S A B} (c : M S A) (k : A -> M S B) (s s1 : S) (e : exn) :
  c s = (s1, Raise e) -> (c ≫= k) s = (s1, Raise e).
Proof. unfold mbind, M_bind. now intros ->. Qed.

Lemma lift_run {A} (c : M env A) (st : bot) (w : env) (r : result A) :
  c (world st) = (w, r) -> lift c st = (set_world w st, r).
Proof. unfold lift. now intros ->. Qed.

Lemma extern_run (c : call) (w : env) :
  faults (calls w) c = None -> extern c w = (log_call c w, Ok tt).
Proof. unfold extern. now intros ->. Qed.

Lemma extern_raise (c : call) (w : env) (e : exn) :
  faults (calls w) c = Some e -> extern c w = (log_call c w, Raise e).
Proof. unfold extern. now intros ->. Qed.

Lemma reply_text_run (update : Update) (text : string) (w : env) :
  faults (calls w) (ReplyText (from_user_id update) text) = None ->
  reply_text update text w
  = (log_call (ReplyText (from_user_id update) text) w, Ok (length (calls w))).
Proof.
  intros H. unfold reply_text, gets. unfold mbind, M_bind.
  now rewrite (extern_run _ _ H).
Qed.

Lemma download_ok (d : Document) (path : string) (w w' : env) (u : unit) :
  download d path w = (w', Ok u) ->
  files w' = <[path := remote_file (file_id d)]> (files w).
Proof.
  intros H. apply bind_ok in H as (u1 & w1 & H1 & H).
  apply bind_ok in H as (u2 & w2 & H2 & [= <-]).
  apply extern_ok in H1, H2. now subst.
Qed.

Lemma get_page_count_total (pdf_path : string) (w : env) :
  exists n, get_page_count pdf_path w = (w, Ok n).
Proof.
  unfold get_page_count, try_except, read_pdf. run_monad.
  destruct (files w !! pdf_path) as [[ps|c]|]; eauto.
Qed.

Lemma get_page_count_ok (pdf_path : string) (w w' : env) (n : option Z) :
  get_page_count pdf_path w = (w', Ok n) -> w' = w.
Proof.
  destruct (get_page_count_total pdf_path w) as [m ->]. now intros [=].
Qed.

Lemma os_path_getsize_ok (path : string) (w w' : env) (n : Z) :
  os_path_getsize path w = (w', Ok n) -> w' = w.
Proof.
  unfold os_path_getsize. destruct (files w !! path); now intros [=].
Qed.

(** A completed upload records the new path, whatever was recorded
    before, and the file is stored under it. *)
Lemma upload_records (update : Update) (d : Document) (name : string)
    (st st' : bot) :
  document update = Some d ->
  file_name d = Some name ->
  ends_with_nocase name ".pdf" ->
  handle_pdf_upload update st = (st', Ok tt) ->
  let user := from_user_id update in
  let ref := upload_path user (clock (world st)) name in
  user_data st'
    = <[user := <["last_pdf" := ref]> (default ∅ (user_data st !! user))]>
        (user_data st)
  /\ files (world st') = <[ref := remote_file (file_id d)]> (files (world st)).
Proof.
  intros Hdoc Hname Hend Hrun.
  apply (endswith_lower_spec name ".pdf" eq_refl) in Hend.
  unfold handle_pdf_upload, not_a_pdf in Hrun.
  rewrite Hdoc, Hname, Hend in Hrun. cbn [negb str_of_name] in Hrun.
  apply bind_ok in Hrun as (b & s0 & [= <- <-] & Hrun).
  apply bind_ok in Hrun as (now & s1 & [= <- <-] & Hrun).
  apply bind_ok in Hrun as (m1 & s2 & H1 & Hrun).
  apply bind_ok in Hrun as (u2 & s3 & H2 & Hrun).
  apply bind_ok in Hrun as (u3 & s4 & H3 & Hrun).
  apply bind_ok in Hrun as (pages & s5 & H4 & Hrun).
  apply bind_ok in Hrun as (size & s6 & H5 & Hrun).
  apply bind_ok in Hrun as (m2 & s7 & H6 & [= <-]).
  apply lift_ok in H1 as (w1 & H1 & ->). apply reply_text_ok in H1 as ->.
  apply lift_ok in H2 as (w2 & H2 & ->). apply download_ok in H2.
  injection H3 as <-.
  apply lift_ok in H4 as (w4 & H4 & ->).
  apply get_page_count_ok in H4 as ->.
  apply lift_ok in H5 as (w5 & H5 & ->). apply os_path_getsize_ok in H5 as ->.
  apply lift_ok in H6 as (w6 & H6 & ->). apply reply_text_ok in H6 as ->.
  simpl. split; [reflexivity | exact H2].
Qed.

Lemma get_current_recorded (user : Z) (ref : string) (f : file) (st : bot) :
  last_pdf user st = Some ref ->
  String.eqb ref "" = false ->
  files (world st) !! ref = Some f ->
  get_current user st = Some ref.
Proof.
  intros H1 H2 H3. unfold get_current. rewrite H1, H2, H3.
  rewrite bool_decide_eq_true_2; eauto.
Qed.

(** C4. After an upload is recorded, the session's current document is
    the path of that upload; after a second upload to the same session it
    is the path of the second one, and the session's data is what a single
    upload of the second document would have left: nothing of the first
    reference is kept. *)
Theorem upload_last_write_wins (u1 u2 : Update) (d1 d2 : Document)
    (n1 n2 : string) (st0 st1 st1' st2 : bot) :
  from_user_id u2 = from_user_id u1 ->
  document u1 = Some d1 -> file_name d1 = Some n1 ->
  ends_with_nocase n1 ".pdf" ->
  document u2 = Some d2 -> file_name d2 = Some n2 ->
  ends_with_nocase n2 ".pdf" ->
  handle_pdf_upload u1 st0 = (st1, Ok tt) ->
  user_data st1' = user_data st1 ->
  handle_pdf_upload u2 st1' = (st2, Ok tt) ->
  let user := from_user_id u1 in
  let ref1 := upload_path user (clock (world st0)) n1 in
  let ref2 := upload_path user (clock (world st1')) n2 in
  get_current user st1 = Some ref1
  /\ get_current user st2 = Some ref2
  /\ user_data st2 !! user
     = Some (<["last_pdf" := ref2]> (default ∅ (user_data st0 !! user))).
Proof.
  intros Hu Hd1 Hn1 He1 Hd2 Hn2 He2 Hr1 Hud Hr2 user ref1 ref2.
  destruct (upload_records u1 d1 n1 st0 st1 Hd1 Hn1 He1 Hr1) as [Hud1 Hf1].
  destruct (upload_records u2 d2 n2 st1' st2 Hd2 Hn2 He2 Hr2) as [Hud2 Hf2].
  rewrite Hu in Hud2, Hf2. fold user ref1 in Hud1, Hf1.
  fold user ref2 in Hud2, Hf2.
  split; [|split].
  - apply (get_current_recorded user ref1 (remote_file (file_id d1))).
    + unfold last_pdf. rewrite Hud1, lookup_insert_eq. simpl.
      now rewrite lookup_insert_eq.
    + apply upload_path_nonempty.
    + rewrite Hf1. apply lookup_insert_eq.
  - apply (get_current_recorded user ref2 (remote_file (file_id d2))).
    + unfold last_pdf. rewrite Hud2, lookup_insert_eq. simpl.
      now rewrite lookup_insert_eq.
    + apply upload_path_nonempty.
    + rewrite Hf2. apply lookup_insert_eq.
  - rewrite Hud2, lookup_insert_eq, Hud, Hud1, lookup_insert_eq. simpl.
    now rewrite insert_insert_eq.
Qed.

(* ===================================================================== *)
(** * The clean command *)
(* ===================================================================== *)

Lemma cmd_clean_body_enqueues (update : Update) (pdf : string) (st : bot) :
  last_pdf (from_user_id update) st = Some pdf ->
  cmd_clean_body update st
  = enqueue (clean_task update pdf (clean_output pdf)) st.
Proof.
  intros H. unfold last_pdf in H.
  unfold cmd_clean_body, user_data_item, user_data_get, gets.
  unfold mbind at 1 2. unfold M_bind at 1 2. now rewrite H.
Qed.

(** A name that also holds a lowercase ".pdf" gets a path of its own. *)
Lemma clean_output_of_double_suffix :
  endswith "a.pdf.PDF" ".PDF" = true
  /\ clean_output (upload_path 7 0 "a.pdf.PDF") = "pdf_files/7_0_a_clean.pdf.PDF".
Proof. split; reflexivity. Qed.

(* ===================================================================== *)
(** * The progress reporter *)
(* ===================================================================== *)

Lemma range_length (lo hi : Z) : length (range lo hi) = Z.to_nat (hi - lo).
Proof. unfold range. now rewrite length_map, length_seq. Qed.

Lemma calls_log_calls (cs : list call) (w : env) :
  calls (log_calls cs w) = calls w ++ cs.
Proof.
  revert w; induction cs as [|c cs IH]; intros w; simpl.
  - now rewrite app_nil_r.
  - rewrite IH. simpl. now rewrite <- app_assoc.
Qed.

Lemma files_log_calls (cs : list call) (w : env) :
  files (log_calls cs w) = files w.
Proof.
  revert w; induction cs as [|c cs IH]; intros w; simpl; [reflexivity|].
  now rewrite IH.
Qed.

(** One step: the update is attempted once, its failure is dropped, the
    pause follows. *)
Lemma progress_step_runs (message : Message) (total_steps : Z)
    (action : string) (speed : spec_float) (step : Z) (w : env) :
  float_is_negative speed || float_is_nan speed = false ->
  is_Some (progress_filled step total_steps) ->
  is_Some (progress_percent step total_steps) ->
  progress_step message total_steps action speed step w
  = (log_calls [EditText message (rendered action total_steps step);
                Sleep speed] w, Ok tt).
Proof.
  intros Hs [f Hf] [q Hq]. apply orb_false_iff in Hs as [Hneg Hnan].
  unfold progress_step, rendered, to_int, time_sleep.
  unfold progress_filled in Hf. unfold progress_percent in Hq.
  rewrite Hnan, Hneg. unfold progress_filled, progress_percent. rewrite Hf, Hq.
  unfold try_except, extern, record. run_monad.
  destruct (faults _ _); reflexivity.
Qed.

Lemma progress_steps_run (message : Message) (total_steps : Z)
    (action : string) (speed : spec_float) (steps : list Z) (w : env) :
  float_is_negative speed || float_is_nan speed = false ->
  forallb (fun step =>
             bool_decide (is_Some (progress_filled step total_steps))
             && bool_decide (is_Some (progress_percent step total_steps)))
          steps = true ->
  for_each steps (progress_step message total_steps action speed) w
  = (log_calls
       (flat_map (fun step => [EditText message (rendered action total_steps step);
                               Sleep speed]) steps) w,
     Ok tt).
Proof.
  intros Hs. revert w; induction steps as [|x xs IH]; intros w Hall.
  - reflexivity.
  - simpl in Hall. apply andb_true_iff in Hall as [Hx Hxs].
    apply andb_true_iff in Hx as [Hf Hq].
    apply bool_decide_eq_true_1 in Hf, Hq.
    cbn [for_each]. unfold mbind, M_bind.
    rewrite progress_step_runs by assumption.
    rewrite IH by assumption. reflexivity.
Qed.



(** The conversions are defined for every count up to a hundred. *)
Lemma renders_up_to_100 : forallb renders (range 0 101) = true.
Proof. vm_compute. reflexivity. Qed.

(** For eight steps, the call of [cmd_clean], every percentage is the
    floor of [100 * step / 8]; step 5 shows 62. *)
Lemma progress_percent_eight (step : Z) :
  1 <= step <= 8 -> progress_percent step 8 = Some (100 * step / 8).
Proof.
  intros H.
  assert (E : step = 1 \/ step = 2 \/ step = 3 \/ step = 4 \/ step = 5
              \/ step = 6 \/ step = 7 \/ step = 8) by lia.
  destruct E as [->|[->|[->|[->|[->|[->|[->| ->]]]]]]]; vm_compute; reflexivity.
Qed.

Lemma progress_percent_step_5_of_8 : progress_percent 5 8 = Some 62.
Proof. vm_compute. reflexivity. Qed.

(** So it is for the default of thirty steps. *)
Lemma progress_percent_default :
  forallb (fun step => bool_decide (progress_percent step default_total_steps
                                    = Some (100 * step / default_total_steps)))
          (range 1 (default_total_steps + 1)) = true.
Proof. vm_compute. reflexivity. Qed.

(** C6. With a hundred steps the update of step 29 shows 28 where
    [floor (100 * 29 / 100)] is 29: [29 / 100] rounds to a double just
    below 0.29, its product with 100 to one just below 29, and [int]
    cuts that down to 28. The bar of the same update, computed as
    [int (20 * 29 / 100)], multiplies first and is exact. *)
Theorem progress_percent_rounds_down :
  progress_percent 29 100 = Some 28
  /\ 100 * 29 / 100 = 29
  /\ progress_filled 29 100 = Some (20 * 29 / 100)
  /\ rendered "Processing" 100 29 = "Processing: [█████---------------] 28%"
  /\ length (range 1 (100 + 1)) = 100%nat.
Proof. vm_compute. repeat split. Qed.

(** Below fifty steps every percentage is the floor; fifty is the first
    count with a step that is not. *)
Lemma progress_percent_exact_below_50 :
  forallb (fun total =>
     forallb (fun step => bool_decide (progress_percent step total
                                       = Some (100 * step / total)))
             (range 1 (total + 1)))
    (range 1 50) = true.
Proof. vm_compute. reflexivity. Qed.

(* ===================================================================== *)
(** * Splitting *)
(* ===================================================================== *)

Lemma range_cons (lo hi : Z) : lo < hi -> range lo hi = lo :: range (lo + 1) hi.
Proof.
  intros H. unfold range.
  replace (Z.to_nat (hi - lo)) with (S (Z.to_nat (hi - (lo + 1)))) by lia.
  cbn [seq map]. f_equal; [lia|].
  rewrite <- seq_shift, map_map. apply map_ext. intros k. lia.
Qed.

Lemma range_empty (lo : Z) : range lo lo = [].
Proof. unfold range. now rewrite Z.sub_diag. Qed.

Lemma split_pages_paths (out_folder : string) (pages : list page) :
  (forall log p, faults log (OpenWrite p) = None) ->
  forall (i : Z) (out_paths : list string) (w : env),
  exists w',
    split_pages out_folder i pages out_paths w
    = (w', Ok (out_paths
               ++ map (page_path out_folder)
                      (range i (i + Z.of_nat (length pages)))))
    /\ calls w'
       = calls w ++ map OpenWrite
                     (map (page_path out_folder)
                          (range i (i + Z.of_nat (length pages)))).
Proof.
  intros Hw. induction pages as [|p rest IH]; intros i out_paths w.
  - exists w. simpl. rewrite Z.add_0_r, range_empty. simpl.
    now rewrite !app_nil_r.
  - cbn [split_pages]. fold (page_path out_folder i).
    unfold write_pdf, extern. unfold mbind, M_bind, modify.
    rewrite Hw.
    destruct (IH (i + 1) (out_paths ++ [page_path out_folder i])
                 (set_file (page_path out_folder i) (PdfFile [p])
                    (log_call (OpenWrite (page_path out_folder i)) w)))
      as (w' & Hrun & Hcalls).
    exists w'. rewrite Hrun, Hcalls.
    rewrite (range_cons i) by (simpl length; lia).
    replace (i + 1 + Z.of_nat (length rest))
      with (i + Z.of_nat (length (p :: rest))) by (simpl length; lia).
    simpl. rewrite <- !app_assoc. auto.
Qed.

(** C8. For an input PDF of N pages, when the output files can be
    opened, [split_pdf] returns the N paths [page_1.pdf] to [page_N.pdf]
    under the output folder, in page order, having written them in that
    order, and [get_page_count] of the input is N. *)
Theorem split_pdf_one_path_per_page (input_pdf out_folder : string)
    (pages : list page) (w : env) :
  files w !! input_pdf = Some (PdfFile pages) ->
  (forall log p, faults log (OpenWrite p) = None) ->
  let n := Z.of_nat (length pages) in
  exists w',
    split_pdf input_pdf out_folder w = (w', Ok (page_paths out_folder n))
    /\ calls w' = calls w ++ map OpenWrite (page_paths out_folder n)
    /\ length (page_paths out_folder n) = length pages
    /\ get_page_count input_pdf w = (w, Ok (Some n)).
Proof.
  intros Hin Hw n.
  destruct (split_pages_paths out_folder pages Hw 1 [] w) as (w' & Hrun & Hc).
  exists w'. unfold split_pdf, get_page_count, try_except, read_pdf, page_paths.
  unfold mbind, M_bind, mret, M_ret. rewrite Hin.
  replace (n + 1) with (1 + Z.of_nat (length pages)) by (unfold n; lia).
  rewrite Hrun, Hc, length_map, range_length. simpl.
  repeat split. lia.
Qed.

(* ===================================================================== *)
(** * The queue and its worker *)
(* ===================================================================== *)




Lemma executing_balanced (h : list job_event) :
  started h = ended h -> executing h = 0.
Proof. unfold executing. intros ->. lia. Qed.

Lemma executing_one (h : list job_event) (t : task) :
  started h = ended h ++ [t] -> executing h = 1.
Proof. unfold executing. intros ->. rewrite length_app. simpl. lia. Qed.

(** Between blocked, running and ended, at most one payload runs. *)
Lemma worker_inv_executing (acts : list action) (st : bot) :
  worker_inv acts st -> 0 <= executing (history st) <= 1.
Proof.
  intros (_ & H & _). destruct (worker_thread st).
  - destruct H as [H _]. rewrite (executing_balanced _ H). lia.
  - destruct H as [H _]. rewrite (executing_one _ _ H). lia.
  - destruct H as [H _]. rewrite (executing_balanced _ H). lia.
Qed.














(** X28. A payload that raises outside [Exception] ends the thread: the
    exception leaves the loop without [task_done], the jobs behind it
    stay in the queue, and no later pass of the worker takes one. *)
Lemma escaping_job_ends_worker (st : bot) (t : task) (rest : list task)
    (w1 : env) (e : exn) :
  worker_thread st = Waiting ->
  items (job_queue st) = t :: rest ->
  t (world st) = (w1, Raise e) ->
  is_Exception e = false ->
  exists st1,
    worker_iteration st = Some st1
    /\ worker_thread st1 = Terminated e
    /\ items (job_queue st1) = rest
    /\ forall fuel, worker fuel st1 = st1.
Proof.
  intros Hth Hit Ht He. unfold worker_iteration, worker_get.
  rewrite Hth, Hit. cbn [mbind option_bind]. unfold worker_call. simpl.
  rewrite Ht, He. eexists. split; [reflexivity|]. simpl.
  repeat split. intros [|fuel]; reflexivity.
Qed.



(* ===================================================================== *)
(** * Merging *)
(* ===================================================================== *)

Lemma merge_pages_concat (file_list : list string) :
  forall (written : list page) (w : env),
  Forall (fun f => exists ps, files w !! f = Some (PdfFile ps)) file_list ->
  merge_pages file_list written w
  = (w, Ok (written ++ concat (map (pages_of w) file_list))).
Proof.
  induction file_list as [|f rest IH]; intros written w Hall.
  - simpl. now rewrite app_nil_r.
  - apply Forall_cons in Hall as [[ps Hf] Hrest].
    cbn [merge_pages map concat]. unfold mbind, M_bind, read_pdf, pages_of at 1.
    rewrite Hf, IH by exact Hrest. now rewrite <- app_assoc.
Qed.

(** [merge_pdfs] writes the pages of its inputs, in the order of the
    list, to the output path. *)
Lemma merge_pdfs_in_order (file_list : list string) (output_path : string)
    (w : env) :
  Forall (fun f => exists ps, files w !! f = Some (PdfFile ps)) file_list ->
  faults (calls w) (OpenWrite output_path) = None ->
  merge_pdfs file_list output_path w
  = (set_file output_path (PdfFile (concat (map (pages_of w) file_list)))
       (log_call (OpenWrite output_path) w), Ok tt).
Proof.
  intros Hall Hopen. unfold merge_pdfs, write_pdf, extern, modify.
  unfold mbind, M_bind. rewrite merge_pages_concat by exact Hall.
  now rewrite Hopen.
Qed.

Lemma merge_set_other (user other : Z) (l : list string) (m : merging) :
  other <> user -> merge_set other (set_merge_set user l m) = merge_set other m.
Proof.
  intros H. unfold merge_set, set_merge_set. simpl.
  now rewrite lookup_insert_ne by congruence.
Qed.

Lemma merge_set_same (user : Z) (l : list string) (m : merging) :
  merge_set user (set_merge_set user l m) = l.
Proof. unfold merge_set, set_merge_set. simpl. now rewrite lookup_insert_eq. Qed.

(** Recordings reach the set of their own session only, in order, and
    leave the process as it is. *)
Lemma record_all_appends (rs : list recording) :
  forall (m : merging) (user : Z),
  merge_set user (record_all rs m) = merge_set user m ++ recorded_by user rs
  /\ process (record_all rs m) = process m.
Proof.
  induction rs as [|[u pdf] rs IH]; intros m user.
  - unfold recorded_by. simpl. now rewrite app_nil_r.
  - cbn [record_all]. destruct (IH (fst (merge_add (update_of u) pdf m)) user)
      as [H1 H2].
    rewrite H1, H2. split; [|reflexivity].
    unfold merge_add, modify, update_of. cbn [fst from_user_id].
    unfold recorded_by. destruct (decide (u = user)) as [->|Hne].
    + rewrite merge_set_same, filter_cons_True by reflexivity.
      simpl. now rewrite <- app_assoc.
    + rewrite merge_set_other by congruence.
      now rewrite filter_cons_False by (simpl; congruence).
Qed.

Lemma progress_bar_default_run (message : Message) (w : env) :
  progress_bar message default_total_steps default_action default_speed w
  = (log_calls (progress_calls message default_total_steps default_action
                               default_speed) w, Ok tt).
Proof.
  unfold progress_bar, progress_calls. apply progress_steps_run.
  - vm_compute. reflexivity.
  - vm_compute. reflexivity.
Qed.

(** The run of the merge job over readable documents, nothing raising. *)
Lemma merge_task_run (update : Update) (file_list : list string)
    (out : string) (w : env) :
  Forall (fun f => exists ps, files w !! f = Some (PdfFile ps)) file_list ->
  (forall log c, faults log c = None) ->
  let user := from_user_id update in
  let msg := length (calls w) in
  exists w',
    merge_task update file_list out w = (w', Ok tt)
    /\ calls w'
       = calls w
         ++ [ReplyText user merge_started_text]
         ++ progress_calls msg default_total_steps default_action default_speed
         ++ [OpenWrite out; EditText msg merge_done_text; ReplyDocument user out]
    /\ files w'
       = <[out := PdfFile (concat (map (pages_of w) file_list))]> (files w).
Proof.
  intros Hall Hnf user msg. unfold merge_task.
  erewrite bind_run by (apply reply_text_run, Hnf). fold msg.
  erewrite bind_run by apply progress_bar_default_run.
  set (w2 := log_calls _ _).
  assert (Hf2 : files w2 = files w) by (unfold w2; now rewrite files_log_calls).
  assert (Hc2 : calls w2 = (calls w ++ [ReplyText user merge_started_text])
                           ++ progress_calls msg default_total_steps
                                default_action default_speed)
    by (unfold w2; now rewrite calls_log_calls).
  clearbody w2.
  assert (Hall2 : Forall (fun f => exists ps, files w2 !! f = Some (PdfFile ps))
                         file_list).
  { eapply Forall_impl; [exact Hall|]. intros f [ps Hf]. exists ps.
    now rewrite Hf2. }
  assert (Hpages : map (pages_of w2) file_list = map (pages_of w) file_list).
  { apply map_ext. intros f. unfold pages_of. now rewrite Hf2. }
  erewrite bind_run by (apply merge_pdfs_in_order; [exact Hall2 | apply Hnf]).
  erewrite bind_run by (apply extern_run, Hnf).
  unfold reply_document, os_path_exists, gets. unfold mbind, M_bind. simpl.
  rewrite lookup_insert_eq.
  rewrite bool_decide_eq_true_2 by eauto.
  rewrite (extern_run _ _ (Hnf _ _)).
  eexists. split; [reflexivity|]. simpl. rewrite Hc2, Hf2, Hpages.
  split; [now rewrite <- !app_assoc | reflexivity].
Qed.

(** C5. The merge set is kept for each session. Whatever the sessions
    record, in whatever interleaving, into merge sets of which the
    finalizing session's is empty at the start: that session's merge set
    then holds what this session recorded, in its order; its finalize
    enqueues exactly one job, the merge job over that sequence, and
    leaves its merge set empty and the sets of the other sessions as
    they are; and the job, run over readable documents on a transport
    where nothing raises, calls [merge_pdfs] once, which writes to the
    output the pages of those documents in that order. With A, B, C
    recorded, the job is the merge over [A, B, C]. *)
Theorem finalize_merges_session_set (rs : list recording) (user : Z)
    (m : merging) :
  merge_set user m = [] ->
  let m1 := record_all rs m in
  let m2 := fst (cmd_done (update_of user) m1) in
  let file_list := recorded_by user rs in
  let out := merge_output user file_list in
  let job := merge_task (update_of user) file_list out in
  merge_set user m1 = file_list
  /\ items (job_queue (process m2)) = items (job_queue (process m)) ++ [job]
  /\ merge_set user m2 = []
  /\ (forall other, other <> user ->
        merge_set other m2 = merge_set other m ++ recorded_by other rs)
  /\ (forall w : env,
        Forall (fun f => exists ps, files w !! f = Some (PdfFile ps)) file_list ->
        (forall log c, faults log c = None) ->
        exists w',
          job w = (w', Ok tt)
          /\ List.filter (fun c => match c with OpenWrite _ => true | _ => false end)
                         (calls w')
             = List.filter (fun c => match c with OpenWrite _ => true | _ => false end)
                           (calls w) ++ [OpenWrite out]
          /\ files w'
             = <[out := PdfFile (concat (map (pages_of w) file_list))]> (files w)).
Proof.
  intros Hempty m1 m2 file_list out job.
  destruct (record_all_appends rs m user) as [H1 H2].
  rewrite Hempty in H1. simpl in H1. fold m1 in H1, H2.
  split; [exact H1|].
  assert (Hdone : m2 = {| process := fst (enqueue job (process m1));
                          merge_sets := <[user := []]> (merge_sets m1) |}).
  { unfold m2, cmd_done, in_process, enqueue, gets, modify.
    unfold mbind, M_bind. cbn [fst from_user_id update_of set_merge_set process
                                 merge_sets].
    now rewrite H1. }
  split; [rewrite Hdone; simpl; now rewrite H2|].
  split; [rewrite Hdone; unfold merge_set; simpl; now rewrite lookup_insert_eq|].
  split.
  - intros other Hne. rewrite Hdone. unfold merge_set at 1. simpl.
    rewrite lookup_insert_ne by congruence.
    exact (proj1 (record_all_appends rs m other)).
  - intros w Hall Hnf.
    destruct (merge_task_run (update_of user) file_list out w Hall Hnf)
      as (w' & Hrun & Hcalls & Hfiles).
    exists w'. split; [exact Hrun|]. split; [|exact Hfiles].
    assert (Hnone : List.filter
              (fun c => match c with OpenWrite _ => true | _ => false end)
              (progress_calls (length (calls w)) default_total_steps
                              default_action default_speed) = []).
    { unfold progress_calls. induction (range 1 (default_total_steps + 1));
        simpl; [reflexivity | assumption]. }
    cbv zeta in Hcalls. rewrite Hcalls, !List.filter_app, Hnone. reflexivity.
Qed.

(* ===================================================================== *)
(** * Further properties: helpers *)
(* ===================================================================== *)

Lemma range_In (lo hi x : Z) : lo <= x < hi -> In x (range lo hi).
Proof.
  intros H. unfold range. apply in_map_iff.
  exists (Z.to_nat (x - lo)). split; [lia|]. apply in_seq. lia.
Qed.

Lemma forallb_range (f : Z -> bool) (lo hi : Z) :
  forallb f (range lo hi) = true -> forall x, lo <= x < hi -> f x = true.
Proof.
  intros H x Hx. rewrite forallb_forall in H. apply H. now apply range_In.
Qed.

(** What [get_page_count] returns, and that it leaves the environment alone. *)
Lemma get_page_count_run (pdf_path : string) (w : env) :
  get_page_count pdf_path w = (w, Ok (page_count_of w pdf_path)).
Proof.
  unfold get_page_count, try_except, read_pdf, page_count_of. run_monad.
  destruct (files w !! pdf_path) as [[ps|c]|]; reflexivity.
Qed.

(** X1. [get_page_count] never raises and never changes anything: it
    returns the number of pages of a readable PDF and [None] for a
    missing file or a file that is no PDF. *)
Theorem get_page_count_reports (pdf_path : string) (w : env) :
  get_page_count pdf_path w = (w, Ok (page_count_of w pdf_path)).
Proof. exact (get_page_count_run pdf_path w). Qed.

(** X2. Sizes below 1024 print as whole bytes with one decimal, "0.0 B"
    for an empty file included; whole kilobytes and whole megabytes below
    1024 of their unit print exactly, in "KB" and "MB". *)
Theorem human_readable_size_whole_units (n : Z) :
  0 <= n < 1024 ->
  human_readable_size n = str_of_int n +:+ ".0 B"
  /\ (1 <= n ->
      human_readable_size (1024 * n) = str_of_int n +:+ ".0 KB"
      /\ human_readable_size (1024 * 1024 * n) = str_of_int n +:+ ".0 MB").
Proof.
  intros H. split; [|intros H1; split].
  - apply String.eqb_eq.
    revert n H. apply (forallb_range (fun n =>
      String.eqb (human_readable_size n) (str_of_int n +:+ ".0 B"))).
    vm_compute. reflexivity.
  - apply String.eqb_eq.
    assert (H' : 1 <= n < 1024) by lia. revert n H' H H1.
    intros n H' _ _. revert n H'. apply (forallb_range (fun n =>
      String.eqb (human_readable_size (1024 * n)) (str_of_int n +:+ ".0 KB"))).
    vm_compute. reflexivity.
  - apply String.eqb_eq.
    assert (H' : 1 <= n < 1024) by lia. revert n H' H H1.
    intros n H' _ _. revert n H'. apply (forallb_range (fun n =>
      String.eqb (human_readable_size (1024 * 1024 * n))
                 (str_of_int n +:+ ".0 MB"))).
    vm_compute. reflexivity.
Qed.

(* ===================================================================== *)
(** * Further properties: the progress reporter *)
(* ===================================================================== *)

(** X3. With no steps to perform ([total_steps] zero or negative) the
    reporter returns at once: no update, no pause, and no complaint about
    the pause length either. *)
Theorem progress_bar_without_steps (message : Message) (total_steps : Z)
    (action : string) (speed : spec_float) (w : env) :
  total_steps <= 0 ->
  progress_bar message total_steps action speed w = (w, Ok tt).
Proof.
  intros H. unfold progress_bar, range.
  replace (Z.to_nat (total_steps + 1 - 1)) with 0%nat by lia. reflexivity.
Qed.


(** X5. For fewer than fifty steps, every update shows exactly
    [floor (100 * step / total_steps)]. *)
Theorem progress_percent_exact_under_50 (step total_steps : Z) :
  1 <= step <= total_steps ->
  total_steps < 50 ->
  progress_percent step total_steps = Some (100 * step / total_steps).
Proof.
  intros Hs Ht.
  pose proof (forallb_range _ 1 50 progress_percent_exact_below_50
                total_steps ltac:(lia)) as H.
  cbv beta in H.
  pose proof (forallb_range _ 1 (total_steps + 1) H step ltac:(lia)) as H'.
  cbv beta in H'. now apply bool_decide_eq_true_1 in H'.
Qed.

(** The numbers of every step of every run of up to a hundred steps. *)
Lemma progress_numbers_up_to_100 :
  forallb (fun total =>
     forallb (fun step =>
        match progress_filled step total, progress_percent step total with
        | Some f, Some p =>
            (f =? 20 * step / total)
            && (100 * step / total - 1 <=? p) && (p <=? 100 * step / total)
            && (if step =? total then p =? 100 else true)
        | _, _ => false
        end)
       (range 1 (total + 1)))
    (range 1 101) = true.
Proof. vm_compute. reflexivity. Qed.

(** X6. For up to a hundred steps: the number of filled cells is exactly
    [floor (20 * step / total_steps)], so the bar always has its twenty
    cells; the percentage shown is the floor of [100 * step / total_steps]
    or one below it; and the last update shows a full bar and 100. *)
Theorem progress_bar_numbers (step total_steps : Z) :
  1 <= step <= total_steps ->
  total_steps <= 100 ->
  exists filled percent,
    progress_filled step total_steps = Some filled
    /\ progress_percent step total_steps = Some percent
    /\ filled = 20 * step / total_steps
    /\ 0 <= filled <= 20
    /\ 100 * step / total_steps - 1 <= percent <= 100 * step / total_steps
    /\ (step = total_steps -> filled = 20 /\ percent = 100).
Proof.
  intros Hs Ht.
  pose proof (forallb_range _ 1 101 progress_numbers_up_to_100
                total_steps ltac:(lia)) as H.
  cbv beta in H.
  pose proof (forallb_range _ 1 (total_steps + 1) H step ltac:(lia)) as H'.
  cbv beta in H'.
  destruct (progress_filled step total_steps) as [f|]; [|discriminate].
  destruct (progress_percent step total_steps) as [p|]; [|discriminate].
  rewrite !andb_true_iff in H'. destruct H' as [[[Hf Hlo] Hhi] Hlast].
  apply Z.eqb_eq in Hf. apply Z.leb_le in Hlo, Hhi.
  exists f, p. split; [reflexivity|]. split; [reflexivity|].
  split; [exact Hf|]. split.
  - subst f. split.
    + apply Z.div_pos; lia.
    + apply Z.div_le_upper_bound; lia.
  - split; [lia|]. intros ->. rewrite Z.eqb_refl in Hlast.
    apply Z.eqb_eq in Hlast. split; [|exact Hlast].
    subst f. apply Z.div_mul. lia.
Qed.

(* ===================================================================== *)
(** * Further properties: the PDF operations *)
(* ===================================================================== *)

Lemma page_count_of_None (w : env) (path : string) :
  page_count_of w path = None ->
  read_pdf path w = (w, Raise (read_error w path)).
Proof.
  unfold page_count_of, read_pdf, read_error.
  destruct (files w !! path) as [[ps|c]|]; [discriminate | reflexivity..].
Qed.

Lemma open_error_Some (w : env) (path : string) (e : exn) :
  open_error w path = Some e -> fitz_open path w = (w, Raise e).
Proof.
  unfold open_error, fitz_open.
  destruct (files w !! path) as [[ps|c]|]; [discriminate | |now intros [= <-]].
  destruct (fitz_document path c); [discriminate | now intros [= <-]].
Qed.

(** X7. An operation that cannot open its input raises before it has
    called or written anything, and leaves the environment exactly as it
    was. The operations that read with [PdfReader] -- split, rotate,
    merge -- raise the reader's exception for a path that is missing or
    holds no PDF. The operations that open with PyMuPDF -- clean,
    compress, extract -- raise PyMuPDF's exception: its own "no such
    file" for a missing path, its [FileDataError] for a file it cannot
    make a document of. *)
Theorem operations_refuse_unreadable_input (input_pdf output : string)
    (keywords : option (list string)) (angle dpi : Z) (w : env) :
  let refused {A} (e : exn) (c : M env A) := c w = (w, Raise e) in
  (page_count_of w input_pdf = None ->
   refused (read_error w input_pdf) (split_pdf input_pdf output)
   /\ refused (read_error w input_pdf) (rotate_pdf input_pdf output angle)
   /\ refused (read_error w input_pdf) (merge_pdfs [input_pdf] output))
  /\ (forall e : exn,
        open_error w input_pdf = Some e ->
        refused e (remove_watermark input_pdf output keywords)
        /\ refused e (compress_pdf input_pdf output)
        /\ refused e (extract_images input_pdf output dpi))
  /\ (files w !! input_pdf = None ->
      read_error w input_pdf = FileNotFoundError input_pdf
      /\ open_error w input_pdf = Some (fitz_FileNotFoundError input_pdf)).
Proof.
  intros refused. unfold refused. split; [|split].
  - intros H. apply page_count_of_None in H.
    unfold split_pdf, rotate_pdf, merge_pdfs. cbn [merge_pages].
    unfold mbind, M_bind. rewrite H. repeat split.
  - intros e H. apply open_error_Some in H.
    unfold remove_watermark, compress_pdf, extract_images.
    unfold mbind, M_bind. rewrite H. repeat split.
  - intros H. unfold read_error, open_error. rewrite H. split; reflexivity.
Qed.

Lemma fitz_open_pdf (path : string) (ps : list page) (w : env) :
  files w !! path = Some (PdfFile ps) -> fitz_open path w = (w, Ok ps).
Proof. unfold fitz_open. now intros ->. Qed.

(** Past the opening of a readable PDF, [remove_watermark] is the save of
    the redacted pages. *)
Lemma remove_watermark_opened (input_pdf output_pdf : string)
    (keywords : option (list string)) (ps : list page) (w : env) :
  files w !! input_pdf = Some (PdfFile ps) ->
  remove_watermark input_pdf output_pdf keywords w
  = fitz_save input_pdf output_pdf
      (map (redact (default WATERMARK_KEYWORDS keywords)) ps) w.
Proof.
  intros Hin. unfold remove_watermark.
  erewrite bind_run by (apply fitz_open_pdf, Hin). now destruct keywords.
Qed.

Lemma save_raises_same (log : list call) (path : string) :
  save_raises log path path
  = Some (ValueError "save to original must be incremental").
Proof. unfold save_raises. now rewrite String.eqb_refl. Qed.

Lemma save_raises_other (log : list call) (name path : string) :
  path <> name -> save_raises log name path = faults log (FitzSave name path).
Proof.
  intros H. unfold save_raises.
  now destruct (String.eqb_spec path name) as [E|_]; [destruct (H E)|].
Qed.

(** X8. [remove_watermark] on a readable PDF makes one call, the save.
    With an output path other than the input, when the save is carried
    out: the output holds the redacted pages, as many as the input has
    and in the same order, no other file changes, and the input keeps its
    pages. With the output path equal to the input, PyMuPDF refuses the
    save: [ValueError] leaves the function and no file changes. *)
Theorem remove_watermark_saves_redacted_copy (input_pdf output_pdf : string)
    (keywords : option (list string)) (ps : list page) (w : env) :
  files w !! input_pdf = Some (PdfFile ps) ->
  faults (calls w) (FitzSave input_pdf output_pdf) = None ->
  exists w',
    calls w' = calls w ++ [FitzSave input_pdf output_pdf]
    /\ if String.eqb output_pdf input_pdf
       then remove_watermark input_pdf output_pdf keywords w
            = (w', Raise (ValueError "save to original must be incremental"))
            /\ files w' = files w
       else remove_watermark input_pdf output_pdf keywords w = (w', Ok tt)
            /\ files w'
               = <[output_pdf := PdfFile (map (redact (default WATERMARK_KEYWORDS
                                                                 keywords)) ps)]>
                   (files w)
            /\ page_count_of w' output_pdf = page_count_of w input_pdf
            /\ files w' !! input_pdf = Some (PdfFile ps).
Proof.
  intros Hin Hsave.
  rewrite (remove_watermark_opened _ _ _ ps) by exact Hin. unfold fitz_save.
  destruct (String.eqb_spec output_pdf input_pdf) as [->|Hne].
  - rewrite save_raises_same.
    exists (log_call (FitzSave input_pdf input_pdf) w).
    split; [reflexivity|]. split; reflexivity.
  - rewrite save_raises_other, Hsave by exact Hne.
    eexists (set_file output_pdf _ (log_call (FitzSave input_pdf output_pdf) w)).
    split; [reflexivity|]. split; [reflexivity|].
    split; [reflexivity|]. unfold page_count_of. simpl.
    rewrite lookup_insert_eq, Hin, length_map. split; [reflexivity|].
    now rewrite lookup_insert_ne.
Qed.

(** X9. [compress_pdf] on a readable PDF never loses a page. When
    PyMuPDF's save is carried out, the output holds the pages as PyMuPDF
    leaves them; when it raises, whatever the exception -- as it does for
    an output path equal to the input -- the fallback writes the pages of
    the input unchanged. In both cases the output has as many pages as
    the input. *)
Theorem compress_pdf_keeps_every_page (input_pdf output_pdf : string)
    (ps : list page) (w : env) :
  files w !! input_pdf = Some (PdfFile ps) ->
  (save_raises (calls w) input_pdf output_pdf <> None ->
   faults (calls w ++ [FitzSave input_pdf output_pdf]) (OpenWrite output_pdf)
   = None) ->
  exists w' written,
    compress_pdf input_pdf output_pdf w = (w', Ok tt)
    /\ files w' = <[output_pdf := PdfFile written]> (files w)
    /\ written = match save_raises (calls w) input_pdf output_pdf with
                 | None => map deflate ps
                 | Some _ => ps
                 end
    /\ page_count_of w' output_pdf = page_count_of w input_pdf.
Proof.
  intros Hin Hopen. unfold compress_pdf.
  erewrite bind_run by (apply fitz_open_pdf, Hin).
  unfold try_except, fitz_save, read_pdf, write_pdf, extern.
  unfold mbind, M_bind, modify.
  unfold page_count_of at 2. rewrite Hin.
  destruct (save_raises (calls w) input_pdf output_pdf) as [e|] eqn:Hsave.
  - simpl. rewrite Hin. simpl. rewrite Hopen by discriminate.
    eexists _, ps. split; [reflexivity|]. unfold page_count_of. simpl.
    rewrite lookup_insert_eq. auto.
  - eexists _, (map deflate ps). split; [reflexivity|].
    unfold page_count_of. simpl. rewrite lookup_insert_eq, length_map. auto.
Qed.

Lemma rotate_pages_all (angle : Z) (ps ps' : list page) :
  Forall2 (fun p p' => rotate_page angle p = Ok p') ps ps' ->
  forall (written : list page) (w : env),
  rotate_pages angle ps written w = (w, Ok (written ++ ps')).
Proof.
  induction 1 as [|p p' ps ps' Hp _ IH]; intros written w.
  - simpl. now rewrite app_nil_r.
  - cbn [rotate_pages]. rewrite Hp, IH, <- app_assoc. reflexivity.
Qed.

(** X10. [rotate_pdf] on a readable PDF whose pages all accept the angle
    writes the rotated pages, one for each input page and in the same
    order, with a single call: opening the output. *)
Theorem rotate_pdf_rotates_in_order (input_pdf output_pdf : string)
    (angle : Z) (ps ps' : list page) (w : env) :
  files w !! input_pdf = Some (PdfFile ps) ->
  Forall2 (fun p p' => rotate_page angle p = Ok p') ps ps' ->
  faults (calls w) (OpenWrite output_pdf) = None ->
  rotate_pdf input_pdf output_pdf angle w
  = (set_file output_pdf (PdfFile ps') (log_call (OpenWrite output_pdf) w),
     Ok tt)
  /\ length ps' = length ps.
Proof.
  intros Hin Hrot Hopen. split; [|symmetry; exact (Forall2_length _ _ _ Hrot)].
  unfold rotate_pdf, read_pdf, write_pdf, extern. unfold mbind, M_bind, modify.
  rewrite Hin, (rotate_pages_all angle ps ps' Hrot), Hopen. reflexivity.
Qed.

(** X11. [rotate_pdf] is all or nothing: when the library refuses the
    angle for one page, behind any number of pages it accepted, the
    exception leaves the function and no output is opened or written. *)
Theorem rotate_pdf_refused_page (input_pdf output_pdf : string) (angle : Z)
    (before after rotated : list page) (p : page) (e : exn) (w : env) :
  files w !! input_pdf = Some (PdfFile (before ++ p :: after)) ->
  Forall2 (fun q q' => rotate_page angle q = Ok q') before rotated ->
  rotate_page angle p = Raise e ->
  rotate_pdf input_pdf output_pdf angle w = (w, Raise e).
Proof.
  intros Hin Hrot Hp. unfold rotate_pdf, read_pdf. unfold mbind, M_bind.
  rewrite Hin.
  assert (Hgen : forall written,
            rotate_pages angle (before ++ p :: after) written w = (w, Raise e)).
  { clear Hin. induction Hrot as [|q q' qs qs' Hq _ IH]; intros written.
    - cbn [app rotate_pages]. now rewrite Hp.
    - cbn [app rotate_pages]. rewrite Hq. apply IH. }
  now rewrite Hgen.
Qed.

Lemma append_inj_r (a b c : string) : a +:+ c = b +:+ c -> a = b.
Proof.
  revert b; induction a as [|x a IH]; intros b H.
  - destruct b as [|y b]; [reflexivity|].
    apply (f_equal String.length) in H.
    rewrite append_nil_l, append_cons in H. simpl in H.
    rewrite length_append in H. lia.
  - destruct b as [|y b].
    + apply (f_equal String.length) in H.
      rewrite append_nil_l, append_cons in H. simpl in H.
      rewrite length_append in H. lia.
    + rewrite !append_cons in H. injection H as -> H. f_equal. now apply IH.
Qed.

Lemma append_last (x y : string) (c d : ascii) :
  x +:+ String c "" = y +:+ String d "" -> c = d.
Proof.
  revert y; induction x as [|a x IH]; intros [|b y] H.
  - now injection H.
  - rewrite append_nil_l, append_cons in H. injection H as _ H.
    apply (f_equal String.length) in H. rewrite length_append in H.
    simpl in H. lia.
  - rewrite append_nil_l, append_cons in H. injection H as _ H.
    apply (f_equal String.length) in H. rewrite length_append in H.
    simpl in H. lia.
  - rewrite !append_cons in H. injection H as _ H. exact (IH y H).
Qed.

Lemma append_inj_l (a b c : string) : a +:+ b = a +:+ c -> b = c.
Proof.
  induction a as [|x a IH]; intros H; [exact H|].
  rewrite !append_cons in H. injection H as H. now apply IH.
Qed.

(** Printing an [int] loses nothing. *)
Lemma str_of_int_inj (n m : Z) : str_of_int n = str_of_int m -> n = m.
Proof.
  unfold str_of_int. intros H. apply DecimalZ.to_int_inj.
  assert (Hnil : forall z, Z.to_int z <> Pos Nil /\ Z.to_int z <> Neg Nil).
  { intros [|p|p]; simpl; split; try discriminate;
      intros [= E]; now apply DecimalPos.Unsigned.to_uint_nonnil in E. }
  assert (E : Some (Z.to_int n) = Some (Z.to_int m)).
  { rewrite <- (NilZero.isi (Z.to_int n)), <- (NilZero.isi (Z.to_int m));
      try apply Hnil. now rewrite H. }
  now injection E.
Qed.

Lemma os_path_join_page (a ext : string) (i : Z) :
  os_path_join a ("page_" +:+ str_of_int i +:+ ext)
  = folder_prefix a +:+ "page_" +:+ str_of_int i +:+ ext.
Proof.
  unfold os_path_join, folder_prefix.
  change (startswith ("page_" +:+ str_of_int i +:+ ext) "/") with false.
  cbv iota. destruct (String.eqb a "" || endswith a "/"); [reflexivity|].
  now rewrite append_assoc.
Qed.

Lemma numbered_path_inj (a ext : string) (i j : Z) :
  os_path_join a ("page_" +:+ str_of_int i +:+ ext)
  = os_path_join a ("page_" +:+ str_of_int j +:+ ext) ->
  i = j.
Proof.
  rewrite !os_path_join_page. intros H.
  apply append_inj_l, append_inj_l, append_inj_r in H.
  now apply str_of_int_inj.
Qed.

Lemma page_path_inj (out_folder : string) (i j : Z) :
  page_path out_folder i = page_path out_folder j -> i = j.
Proof. apply numbered_path_inj. Qed.

Lemma image_path_inj (out_folder : string) (i j : Z) :
  image_path out_folder i = image_path out_folder j -> i = j.
Proof. apply numbered_path_inj. Qed.

(** What the loop of [split_pdf] leaves in the store. *)
Lemma split_pages_files (out_folder : string) (pages : list page) :
  (forall log p, faults log (OpenWrite p) = None) ->
  forall (i : Z) (out_paths : list string) (w : env),
  exists w',
    split_pages out_folder i pages out_paths w
    = (w', Ok (out_paths
               ++ map (page_path out_folder)
                      (range i (i + Z.of_nat (length pages)))))
    /\ (forall (k : nat) (p : page),
          pages !! k = Some p ->
          files w' !! page_path out_folder (i + Z.of_nat k)
          = Some (PdfFile [p]))
    /\ (forall q : string,
          (forall k : nat, (k < length pages)%nat ->
                           q <> page_path out_folder (i + Z.of_nat k)) ->
          files w' !! q = files w !! q).
Proof.
  intros Hw. induction pages as [|p rest IH]; intros i out_paths w.
  - exists w. simpl. rewrite Z.add_0_r, range_empty. simpl.
    rewrite app_nil_r. repeat split. intros k q Hk. discriminate.
  - cbn [split_pages]. fold (page_path out_folder i).
    unfold write_pdf, extern. unfold mbind, M_bind, modify.
    rewrite Hw.
    destruct (IH (i + 1) (out_paths ++ [page_path out_folder i])
                 (set_file (page_path out_folder i) (PdfFile [p])
                    (log_call (OpenWrite (page_path out_folder i)) w)))
      as (w' & Hrun & Hnew & Hold).
    exists w'. split; [|split].
    + rewrite Hrun, (range_cons i) by (simpl length; lia).
      replace (i + 1 + Z.of_nat (length rest))
        with (i + Z.of_nat (length (p :: rest))) by (simpl length; lia).
      simpl. now rewrite <- !app_assoc.
    + intros [|k] q Hk.
      * injection Hk as <-. rewrite Z.add_0_r, Hold.
        -- simpl. apply lookup_insert_eq.
        -- intros k _ E. apply page_path_inj in E. lia.
      * replace (i + Z.of_nat (S k)) with (i + 1 + Z.of_nat k) by lia.
        now apply Hnew.
    + intros q Hq. rewrite Hold.
      * simpl. apply lookup_insert_ne. intros E.
        apply (Hq 0%nat); [simpl; lia|]. now rewrite Z.add_0_r.
      * intros k Hk. replace (i + 1 + Z.of_nat k) with (i + Z.of_nat (S k)) by lia.
        apply Hq. simpl. lia.
Qed.

(** X12. After [split_pdf], the file [page_k.pdf] of the output folder
    holds exactly the k-th page of the input, for every k, and no path
    other than these is changed. *)
Theorem split_pdf_writes_each_page (input_pdf out_folder : string)
    (pages : list page) (w : env) :
  files w !! input_pdf = Some (PdfFile pages) ->
  (forall log p, faults log (OpenWrite p) = None) ->
  exists w' out_paths,
    split_pdf input_pdf out_folder w = (w', Ok out_paths)
    /\ (forall (k : nat) (p : page),
          pages !! k = Some p ->
          out_paths !! k = Some (page_path out_folder (Z.of_nat k + 1))
          /\ files w' !! page_path out_folder (Z.of_nat k + 1)
             = Some (PdfFile [p]))
    /\ (forall q : string, q ∉ out_paths -> files w' !! q = files w !! q).
Proof.
  intros Hin Hw.
  destruct (split_pages_files out_folder pages Hw 1 [] w)
    as (w' & Hrun & Hnew & Hold).
  eexists w', _. unfold split_pdf, read_pdf. unfold mbind, M_bind.
  rewrite Hin. split; [exact Hrun|]. simpl. split.
  - intros k p Hk. split.
    + rewrite list_lookup_fmap. unfold range. rewrite list_lookup_fmap.
      rewrite lookup_seq_lt.
      * simpl. f_equal. f_equal. lia.
      * apply lookup_lt_Some in Hk. lia.
    + replace (Z.of_nat k + 1) with (1 + Z.of_nat k) by lia. now apply Hnew.
  - intros q Hq. apply Hold. intros k Hk ->. apply Hq.
    apply list_elem_of_fmap. exists (1 + Z.of_nat k). split; [reflexivity|].
    apply list_elem_of_In, range_In. lia.
Qed.

Lemma concat_single_pages (w : env) (out_folder : string) (pages : list page) :
  forall i : Z,
  (forall (k : nat) (p : page),
     pages !! k = Some p ->
     files w !! page_path out_folder (i + Z.of_nat k) = Some (PdfFile [p])) ->
  concat (map (pages_of w)
              (map (page_path out_folder)
                   (range i (i + Z.of_nat (length pages)))))
  = pages.
Proof.
  induction pages as [|p rest IH]; intros i H.
  - simpl. now rewrite Z.add_0_r, range_empty.
  - rewrite range_cons by (simpl length; lia). cbn [map concat length].
    unfold pages_of at 1.
    pose proof (H 0%nat p eq_refl) as H0. rewrite Z.add_0_r in H0. rewrite H0.
    simpl. f_equal.
    replace (i + Z.of_nat (S (length rest)))
      with (i + 1 + Z.of_nat (length rest)) by lia.
    apply IH. intros k q Hk.
    replace (i + 1 + Z.of_nat k) with (i + Z.of_nat (S k)) by lia.
    now apply H.
Qed.

(** X13. Splitting and merging are inverse on the pages: merging the
    paths that [split_pdf] returned, in the order it returned them,
    writes a document with exactly the pages of the split input. *)
Theorem split_then_merge_restores (input_pdf out_folder output_path : string)
    (pages : list page) (w : env) :
  files w !! input_pdf = Some (PdfFile pages) ->
  (forall log p, faults log (OpenWrite p) = None) ->
  exists w1 out_paths w2,
    split_pdf input_pdf out_folder w = (w1, Ok out_paths)
    /\ merge_pdfs out_paths output_path w1 = (w2, Ok tt)
    /\ files w2 !! output_path = Some (PdfFile pages).
Proof.
  intros Hin Hw.
  destruct (split_pages_files out_folder pages Hw 1 [] w)
    as (w1 & Hrun & Hnew & _).
  eexists w1, _, _. unfold split_pdf, read_pdf. unfold mbind at 1.
  unfold M_bind at 1. rewrite Hin. split; [exact Hrun|].
  rewrite merge_pdfs_in_order.
  - split; [reflexivity|]. simpl. rewrite lookup_insert_eq.
    now rewrite (concat_single_pages w1 out_folder pages 1 Hnew).
  - simpl. apply Forall_forall. intros q Hq.
    apply list_elem_of_fmap in Hq as (j & -> & Hj).
    apply list_elem_of_In, in_map_iff in Hj as (k & <- & Hk).
    apply in_seq in Hk.
    destruct (lookup_lt_is_Some_2 pages k ltac:(lia)) as [p Hp].
    exists [p]. now apply Hnew.
  - apply Hw.
Qed.

Lemma extract_pages_files (out_folder : string) (dpi : Z) (pages : list page) :
  (forall log p, faults log (OpenWrite p) = None) ->
  forall (i : Z) (out_files : list string) (w : env),
  exists w',
    extract_pages out_folder dpi i pages out_files w
    = (w', Ok (out_files
               ++ map (image_path out_folder)
                      (range i (i + Z.of_nat (length pages)))))
    /\ (forall (k : nat) (p : page),
          pages !! k = Some p ->
          files w' !! image_path out_folder (i + Z.of_nat k)
          = Some (OtherFile (render dpi p)))
    /\ (forall q : string,
          (forall k : nat, (k < length pages)%nat ->
                           q <> image_path out_folder (i + Z.of_nat k)) ->
          files w' !! q = files w !! q).
Proof.
  intros Hw. induction pages as [|p rest IH]; intros i out_files w.
  - exists w. simpl. rewrite Z.add_0_r, range_empty. simpl.
    rewrite app_nil_r. repeat split. intros k q Hk. discriminate.
  - cbn [extract_pages]. fold (image_path out_folder i).
    unfold extern. unfold mbind, M_bind, modify.
    rewrite Hw.
    destruct (IH (i + 1) (out_files ++ [image_path out_folder i])
                 (set_file (image_path out_folder i) (OtherFile (render dpi p))
                    (log_call (OpenWrite (image_path out_folder i)) w)))
      as (w' & Hrun & Hnew & Hold).
    exists w'. split; [|split].
    + rewrite Hrun, (range_cons i) by (simpl length; lia).
      replace (i + 1 + Z.of_nat (length rest))
        with (i + Z.of_nat (length (p :: rest))) by (simpl length; lia).
      simpl. now rewrite <- !app_assoc.
    + intros [|k] q Hk.
      * injection Hk as <-. rewrite Z.add_0_r, Hold.
        -- simpl. apply lookup_insert_eq.
        -- intros k _ E. apply image_path_inj in E. lia.
      * replace (i + Z.of_nat (S k)) with (i + 1 + Z.of_nat k) by lia.
        now apply Hnew.
    + intros q Hq. rewrite Hold.
      * simpl. apply lookup_insert_ne. intros E.
        apply (Hq 0%nat); [simpl; lia|]. now rewrite Z.add_0_r.
      * intros k Hk. replace (i + 1 + Z.of_nat k) with (i + Z.of_nat (S k)) by lia.
        apply Hq. simpl. lia.
Qed.

(** X14. [extract_images] on a readable PDF of N pages, when the images
    can be written, returns the N paths [page_1.png] to [page_N.png] of
    the output folder in page order; each holds the rendering of its
    page at the requested resolution, and no other path is changed: the
    input and the PDF pages of an earlier split stay as they are. *)
Theorem extract_images_one_image_per_page (input_pdf out_folder : string)
    (dpi : Z) (pages : list page) (w : env) :
  files w !! input_pdf = Some (PdfFile pages) ->
  (forall log p, faults log (OpenWrite p) = None) ->
  exists w',
    extract_images input_pdf out_folder dpi w
    = (w', Ok (image_paths out_folder (Z.of_nat (length pages))))
    /\ length (image_paths out_folder (Z.of_nat (length pages))) = length pages
    /\ (forall (k : nat) (p : page),
          pages !! k = Some p ->
          files w' !! image_path out_folder (Z.of_nat k + 1)
          = Some (OtherFile (render dpi p)))
    /\ (forall q : string,
          q ∉ image_paths out_folder (Z.of_nat (length pages)) ->
          files w' !! q = files w !! q)
    /\ (forall i j : Z, page_path out_folder i <> image_path out_folder j).
Proof.
  intros Hin Hw.
  destruct (extract_pages_files out_folder dpi pages Hw 1 [] w)
    as (w' & Hrun & Hnew & Hold).
  exists w'. unfold extract_images, fitz_open, image_paths.
  unfold mbind, M_bind. rewrite Hin.
  replace (Z.of_nat (length pages) + 1) with (1 + Z.of_nat (length pages)) by lia.
  split; [exact Hrun|]. split; [rewrite length_map, range_length; lia|].
  split; [|split].
  - intros k p Hk. replace (Z.of_nat k + 1) with (1 + Z.of_nat k) by lia.
    now apply Hnew.
  - intros q Hq. apply Hold. intros k Hk ->. apply Hq.
    apply list_elem_of_fmap. exists (1 + Z.of_nat k). split; [reflexivity|].
    apply list_elem_of_In, range_In. lia.
  - intros i j E. unfold page_path, image_path in E.
    rewrite !os_path_join_page in E.
    apply append_inj_l, append_inj_l in E.
    change (str_of_int i +:+ ".pdf") with (str_of_int i +:+ ".pd" +:+ "f") in E.
    change (str_of_int j +:+ ".png") with (str_of_int j +:+ ".pn" +:+ "g") in E.
    rewrite <- !append_assoc in E. apply append_last in E. discriminate E.
Qed.

Lemma readable_pages (w : env) (f : string) :
  is_Some (page_count_of w f) -> exists ps, files w !! f = Some (PdfFile ps).
Proof.
  unfold page_count_of. intros [n H].
  destruct (files w !! f) as [[ps|c]|]; [eauto | discriminate..].
Qed.

Lemma length_concat_pages (w : env) (file_list : list string) :
  Z.of_nat (length (concat (map (pages_of w) file_list)))
  = total_pages w file_list.
Proof.
  unfold total_pages. induction file_list as [|f rest IH]; [reflexivity|].
  cbn [map concat fold_right]. rewrite length_app, Nat2Z.inj_add, IH.
  f_equal. unfold pages_of, page_count_of.
  destruct (files w !! f) as [[ps|c]|]; reflexivity.
Qed.

(** X15. [merge_pdfs] on readable inputs, when the output can be opened:
    the output holds the pages of the inputs, file after file in the
    order of the list, so its page count is the sum of theirs; an empty
    list gives an empty document. All inputs are read before the one
    call, opening the output, is made, so the output may be one of the
    inputs. *)
Theorem merge_pdfs_concatenates (file_list : list string)
    (output_path : string) (w : env) :
  Forall (fun f => is_Some (page_count_of w f)) file_list ->
  faults (calls w) (OpenWrite output_path) = None ->
  exists w',
    merge_pdfs file_list output_path w = (w', Ok tt)
    /\ calls w' = calls w ++ [OpenWrite output_path]
    /\ files w'
       = <[output_path := PdfFile (concat (map (pages_of w) file_list))]>
           (files w)
    /\ page_count_of w' output_path = Some (total_pages w file_list).
Proof.
  intros Hall Hopen. eexists. rewrite merge_pdfs_in_order; [|
    eapply Forall_impl; [exact Hall | intros f; apply readable_pages] |
    exact Hopen].
  split; [reflexivity|]. simpl. split; [reflexivity|]. split; [reflexivity|].
  unfold page_count_of. simpl. rewrite lookup_insert_eq.
  now rewrite length_concat_pages.
Qed.

(** X16. [merge_pdfs] with an unreadable file anywhere in the list raises
    the reader's exception for the first such file and opens no output:
    nothing is written, not even the pages read so far. *)
Theorem merge_pdfs_refuses_unreadable_file (readable rest : list string)
    (bad output_path : string) (w : env) :
  Forall (fun f => is_Some (page_count_of w f)) readable ->
  page_count_of w bad = None ->
  merge_pdfs (readable ++ bad :: rest) output_path w
  = (w, Raise (read_error w bad)).
Proof.
  intros Hall Hbad. unfold merge_pdfs. unfold mbind at 1. unfold M_bind at 1.
  assert (Hgen : forall written,
            merge_pages (readable ++ bad :: rest) written w
            = (w, Raise (read_error w bad))).
  { induction Hall as [|f fs Hf _ IH]; intros written.
    - cbn [app merge_pages]. unfold mbind, M_bind.
      now rewrite (page_count_of_None w bad Hbad).
    - cbn [app merge_pages]. unfold mbind, M_bind.
      destruct (readable_pages w f Hf) as [ps Hps].
      unfold read_pdf at 1. rewrite Hps. apply IH. }
  now rewrite Hgen.
Qed.

(* ===================================================================== *)
(** * Further properties: the handlers *)
(* ===================================================================== *)

Lemma split_at_underscore (a a' r r' : string) :
  free_of is_underscore a = true ->
  free_of is_underscore a' = true ->
  a +:+ "_" +:+ r = a' +:+ "_" +:+ r' ->
  a = a' /\ r = r'.
Proof.
  revert a'; induction a as [|x a IH]; intros [|y a'] Ha Ha' H.
  - rewrite !append_nil_l in H. now injection H.
  - rewrite append_nil_l, !append_cons in H. injection H as <- _.
    simpl in Ha'. discriminate Ha'.
  - rewrite append_nil_l, !append_cons in H. injection H as -> _.
    simpl in Ha. discriminate Ha.
  - rewrite !append_cons in H. injection H as -> H.
    simpl in Ha, Ha'. apply andb_true_iff in Ha as [_ Ha].
    apply andb_true_iff in Ha' as [_ Ha'].
    destruct (IH a' Ha Ha' H) as [-> ->]. auto.
Qed.

(** The three components of an upload path can be read back from it. *)
Lemma upload_path_components (user user' now now' : Z) (name name' : string) :
  upload_path user now name = upload_path user' now' name' ->
  user = user' /\ now = now' /\ name = name'.
Proof.
  rewrite !upload_path_eq, !append_assoc. intros H.
  apply append_inj_l in H.
  apply split_at_underscore in H as [Hu H];
    try (apply str_of_int_free; reflexivity).
  apply split_at_underscore in H as [Hn H];
    try (apply str_of_int_free; reflexivity).
  apply str_of_int_inj in Hu, Hn. auto.
Qed.

(** X17. The stored path of an upload determines the uploader, the second
    of the upload and the file name: two uploads share a path only when
    all three agree, so the files of different users, or of one user at
    different seconds, never overwrite each other. *)
Theorem upload_path_inj (user user' now now' : Z) (name name' : string) :
  upload_path user now name = upload_path user' now' name' ->
  user = user' /\ now = now' /\ name = name'.
Proof. exact (upload_path_components user user' now now' name name'). Qed.

Lemma page_count_of_set_file (path : string) (f : file) (w : env) :
  page_count_of (set_file path f w) path = pages_in f.
Proof.
  unfold page_count_of. simpl. rewrite lookup_insert_eq. now destruct f.
Qed.

(** The run of the upload handler on an accepted document, nothing raising. *)
Lemma handle_pdf_upload_accepted (update : Update) (d : Document)
    (name : string) (st : bot) :
  document update = Some d ->
  file_name d = Some name ->
  ends_with_nocase name ".pdf" ->
  (forall log c, faults log c = None) ->
  let user := from_user_id update in
  let ref := upload_path user (clock (world st)) name in
  let f := remote_file (file_id d) in
  exists st',
    handle_pdf_upload update st = (st', Ok tt)
    /\ calls (world st')
       = calls (world st)
         ++ [ReplyText user downloading_text;
             GetFile (file_id d);
             DownloadToDrive (file_id d) ref;
             ReplyText user (received_text (pages_in f) (getsize f) ref)]
    /\ files (world st') = <[ref := f]> (files (world st))
    /\ get_current user st' = Some ref
    /\ job_queue st' = job_queue st
    /\ worker_thread st' = worker_thread st.
Proof.
  intros Hdoc Hname Hend Hnf user ref f.
  apply (endswith_lower_spec name ".pdf" eq_refl) in Hend.
  unfold handle_pdf_upload, not_a_pdf. rewrite Hdoc, Hname, Hend.
  cbn [negb str_of_name]. fold user.
  rewrite (bind_run _ _ st st false) by reflexivity.
  rewrite (bind_run _ _ st st (clock (world st))) by reflexivity.
  fold ref.
  assert (Hne : String.eqb ref "" = false) by apply upload_path_nonempty.
  clearbody ref.
  erewrite bind_run by (apply lift_run, reply_text_run, Hnf).
  erewrite bind_run; cycle 1.
  { apply lift_run. unfold download.
    erewrite bind_run by (apply extern_run, Hnf).
    erewrite bind_run by (apply extern_run, Hnf). reflexivity. }
  erewrite bind_run by reflexivity.
  erewrite bind_run by (apply lift_run, get_page_count_run).
  erewrite bind_run; cycle 1.
  { apply lift_run. unfold os_path_getsize. simpl.
    rewrite lookup_insert_eq. reflexivity. }
  erewrite bind_run by (apply lift_run, reply_text_run, Hnf).
  eexists. split; [reflexivity|]. simpl.
  rewrite !page_count_of_set_file.
  split; [now rewrite <- !app_assoc|]. split; [reflexivity|].
  split; [|split; reflexivity].
  apply (get_current_recorded user ref f).
  - unfold last_pdf. simpl. rewrite lookup_insert_eq. simpl.
    now rewrite lookup_insert_eq.
  - exact Hne.
  - simpl. apply lookup_insert_eq.
Qed.

(** X18. An accepted upload on a transport where nothing raises makes
    four calls, in this order: the "Downloading" reply, [get_file], the
    download to the upload path, and the receipt. The downloaded file is
    stored under the upload path and becomes the session's current
    document; no job is enqueued. The check looked at the name only: a
    file that is no PDF is accepted just the same, and its receipt reads
    "Pages: None". *)
Theorem upload_accepts_and_reports (update : Update) (d : Document)
    (name : string) (st : bot) :
  document update = Some d ->
  file_name d = Some name ->
  ends_with_nocase name ".pdf" ->
  (forall log c, faults log c = None) ->
  let user := from_user_id update in
  let ref := upload_path user (clock (world st)) name in
  let f := remote_file (file_id d) in
  exists st',
    handle_pdf_upload update st = (st', Ok tt)
    /\ calls (world st')
       = calls (world st)
         ++ [ReplyText user downloading_text;
             GetFile (file_id d);
             DownloadToDrive (file_id d) ref;
             ReplyText user (received_text (pages_in f) (getsize f) ref)]
    /\ files (world st') = <[ref := f]> (files (world st))
    /\ get_current user st' = Some ref
    /\ job_queue st' = job_queue st
    /\ worker_thread st' = worker_thread st.
Proof. exact (handle_pdf_upload_accepted update d name st). Qed.

(** X19. When the download of an accepted upload raises, in [get_file]
    or in the transfer, the exception leaves the handler before the
    assignment: the session's recorded reference and current document
    are what they were, no file is stored, and no receipt is sent. *)
Theorem upload_failed_download_keeps_current (update : Update) (d : Document)
    (name : string) (st : bot) (e : exn) :
  document update = Some d ->
  file_name d = Some name ->
  ends_with_nocase name ".pdf" ->
  let user := from_user_id update in
  let ref := upload_path user (clock (world st)) name in
  let log1 := calls (world st) ++ [ReplyText user downloading_text] in
  faults (calls (world st)) (ReplyText user downloading_text) = None ->
  (faults log1 (GetFile (file_id d)) = Some e
   \/ (faults log1 (GetFile (file_id d)) = None
       /\ faults (log1 ++ [GetFile (file_id d)])
                 (DownloadToDrive (file_id d) ref) = Some e)) ->
  exists st',
    handle_pdf_upload update st = (st', Raise e)
    /\ user_data st' = user_data st
    /\ files (world st') = files (world st)
    /\ get_current user st' = get_current user st
    /\ Forall (fun c => match c with
                        | ReplyText _ text => text = downloading_text
                        | _ => True
                        end)
              (drop (length (calls (world st))) (calls (world st'))).
Proof.
  intros Hdoc Hname Hend user ref log1 Hreply Hfail.
  apply (endswith_lower_spec name ".pdf" eq_refl) in Hend.
  unfold handle_pdf_upload, not_a_pdf. rewrite Hdoc, Hname, Hend.
  cbn [negb str_of_name]. fold user.
  rewrite (bind_run _ _ st st false) by reflexivity.
  rewrite (bind_run _ _ st st (clock (world st))) by reflexivity.
  fold ref. clearbody ref.
  erewrite bind_run by (apply lift_run, reply_text_run, Hreply).
  destruct Hfail as [Hget | [Hget Hdown]].
  - erewrite bind_raise; cycle 1.
    { apply lift_run. unfold download.
      erewrite bind_raise by (apply extern_raise; exact Hget). reflexivity. }
    eexists. split; [reflexivity|]. simpl. repeat split.
    rewrite <- app_assoc, drop_app_length. repeat constructor.
  - erewrite bind_raise; cycle 1.
    { apply lift_run. unfold download.
      erewrite bind_run by (apply extern_run; exact Hget).
      erewrite bind_raise by (apply extern_raise; exact Hdown). reflexivity. }
    eexists. split; [reflexivity|]. simpl. repeat split.
    rewrite <- !app_assoc, drop_app_length. repeat constructor.
Qed.

(** X20. When the session has a current document (a recorded, non-empty
    path of an existing file), a command behind [require_pdf] is exactly
    its body: the decorator adds no call and changes nothing. *)
Theorem require_pdf_passes_to_body (func : Update -> M bot unit)
    (update : Update) (st : bot) (pdf : string) (f : file) :
  last_pdf (from_user_id update) st = Some pdf ->
  pdf <> "" ->
  files (world st) !! pdf = Some f ->
  require_pdf func update st = func update st.
Proof.
  intros Hlast Hne Hf. apply (require_pdf_present func update st pdf).
  apply (get_current_recorded _ pdf f); auto. now apply String.eqb_neq.
Qed.

(** The run of [/clean] with a current document. *)
Lemma cmd_clean_run (update : Update) (st : bot) (pdf : string) :
  get_current (from_user_id update) st = Some pdf ->
  exists st',
    cmd_clean update st = (st', Ok tt)
    /\ world st' = world st
    /\ user_data st' = user_data st
    /\ job_queue st'
       = {| items := items (job_queue st)
                     ++ [clean_task update pdf (clean_output pdf)];
            unfinished_tasks := S (unfinished_tasks (job_queue st)) |}
    /\ worker_thread st' = worker_thread st.
Proof.
  intros Hcur. unfold cmd_clean.
  rewrite (require_pdf_present _ _ _ pdf Hcur).
  assert (Hlast : last_pdf (from_user_id update) st = Some pdf).
  { unfold get_current in Hcur.
    destruct (last_pdf (from_user_id update) st) as [p|]; [|discriminate].
    destruct (String.eqb p ""); [discriminate|].
    destruct (bool_decide _); [|discriminate]. exact Hcur. }
  rewrite (cmd_clean_body_enqueues update pdf st Hlast).
  eexists. split; [reflexivity|]. simpl. repeat split.
Qed.

(** X21. [/clean] with a current document returns at once: the handler
    itself calls nothing and touches no file or session data; it appends
    exactly one job to the queue, the clean job from the current document
    to the derived output path. The "Cleaning PDF..." message is sent by
    the job, not by the handler. *)
Theorem cmd_clean_only_enqueues (update : Update) (st : bot) (pdf : string) :
  get_current (from_user_id update) st = Some pdf ->
  exists st',
    cmd_clean update st = (st', Ok tt)
    /\ world st' = world st
    /\ user_data st' = user_data st
    /\ job_queue st'
       = {| items := items (job_queue st)
                     ++ [clean_task update pdf (clean_output pdf)];
            unfinished_tasks := S (unfinished_tasks (job_queue st)) |}
    /\ worker_thread st' = worker_thread st.
Proof. exact (cmd_clean_run update st pdf). Qed.

Lemma replace_from_free_prefix (old' new a b : string) :
  free_of is_dot a = true ->
  replace_from (String "." old') new (a +:+ b) 0
  = a +:+ replace_from (String "." old') new b 0.
Proof.
  induction a as [|x a IH]; intros H; [reflexivity|].
  rewrite !append_cons. simpl in H. apply andb_true_iff in H as [Hx Ha].
  cbn [replace_from String.prefix].
  destruct (ascii_dec "." x) as [<-|_]; [discriminate|].
  now rewrite IH.
Qed.

Lemma prefix_dot_pdf_at_end (c : ascii) (s : string) :
  String.prefix ".pdf" (String c s) = false ->
  String.prefix ".pdf" (String c (s +:+ ".pdf")) = false.
Proof.
  intros H. destruct (String.prefix ".pdf" (String c (s +:+ ".pdf"))) eqn:E;
    [|reflexivity].
  exfalso. apply prefix_spec in E as [r E].
  assert (Hyes : String.prefix ".pdf" (String c s) = true);
    [|now rewrite Hyes in H].
  apply prefix_spec.
  change (".pdf" +:+ r) with (String "." (String "p" (String "d" (String "f" r)))) in E.
  injection E as -> E.
  destruct s as [|c1 s]; [discriminate E|].
  rewrite append_cons in E. injection E as -> E.
  destruct s as [|c2 s]; [discriminate E|].
  rewrite append_cons in E. injection E as -> E.
  destruct s as [|c3 s]; [discriminate E|].
  rewrite append_cons in E. injection E as -> E.
  now exists s.
Qed.

Lemma replace_from_at_end (new s : string) :
  occurs ".pdf" s = false ->
  replace_from ".pdf" new (s +:+ ".pdf") 0 = s +:+ new.
Proof.
  induction s as [|c s IH]; intros H.
  - rewrite !append_nil_l. cbn. now rewrite append_nil_r.
  - cbn [occurs] in H. apply orb_false_iff in H as [Hp Ho].
    rewrite !append_cons. cbn [replace_from].
    rewrite (prefix_dot_pdf_at_end c s Hp). now rewrite IH.
Qed.

Lemma clean_output_of_stem (user now : Z) (stem : string) :
  occurs ".pdf" stem = false ->
  clean_output (upload_path user now (stem +:+ ".pdf"))
  = upload_path user now (stem +:+ "_clean.pdf").
Proof.
  intros H. unfold clean_output, replace. rewrite !upload_path_eq.
  rewrite replace_from_free_prefix.
  - now rewrite replace_from_at_end.
  - rewrite !free_of_append, !(str_of_int_free is_dot) by reflexivity.
    reflexivity.
Qed.

Lemma clean_output_differs (user now : Z) (stem : string) :
  upload_path user now (stem +:+ "_clean.pdf")
  <> upload_path user now (stem +:+ ".pdf").
Proof.
  intros Heq. apply upload_path_components in Heq as (_ & _ & Heq).
  apply append_inj_l in Heq. discriminate Heq.
Qed.

(** X22. For an upload whose name is a stem followed by ".pdf", with no
    further ".pdf" inside the stem, [/clean] derives the path of
    [stem_clean.pdf] in the same place, under the same user and time
    prefix; this path differs from the path of the upload, so the job
    does not write over the original. *)
Theorem clean_output_appends_suffix (user now : Z) (stem : string) :
  occurs ".pdf" stem = false ->
  clean_output (upload_path user now (stem +:+ ".pdf"))
  = upload_path user now (stem +:+ "_clean.pdf")
  /\ clean_output (upload_path user now (stem +:+ ".pdf"))
     <> upload_path user now (stem +:+ ".pdf").
Proof.
  intros H. rewrite (clean_output_of_stem user now stem H).
  split; [reflexivity | apply clean_output_differs].
Qed.

Lemma progress_bar_of_clean (message : Message) (w : env) :
  progress_bar message 8 "Cleaning" default_speed w
  = (log_calls (progress_calls message 8 "Cleaning" default_speed) w, Ok tt).
Proof.
  unfold progress_bar, progress_calls. apply progress_steps_run.
  - vm_compute. reflexivity.
  - vm_compute. reflexivity.
Qed.

(** The clean job up to the call of [remove_watermark]. *)
Lemma clean_task_start (update : Update) (pdf out : string) (w : env) :
  faults (calls w) (ReplyText (from_user_id update) "Cleaning PDF...") = None ->
  let user := from_user_id update in
  let msg := length (calls w) in
  exists w2,
    clean_task update pdf out w
    = (remove_watermark pdf out None ;;
       extern (EditText msg "✔ Cleaned! Sending file...") ;;
       reply_document update out) w2
    /\ files w2 = files w
    /\ calls w2 = calls w
                  ++ [ReplyText user "Cleaning PDF..."]
                  ++ progress_calls msg 8 "Cleaning" default_speed.
Proof.
  intros Hreply user msg. unfold clean_task.
  erewrite bind_run by (apply reply_text_run, Hreply). fold msg.
  erewrite bind_run by apply progress_bar_of_clean.
  eexists. split; [reflexivity|].
  rewrite files_log_calls, calls_log_calls.
  split; [reflexivity|]. simpl. now rewrite <- app_assoc.
Qed.

(** The run of the clean job, nothing raising. *)
Lemma clean_task_run (update : Update) (pdf out : string)
    (ps : list page) (w : env) :
  files w !! pdf = Some (PdfFile ps) ->
  out <> pdf ->
  (forall log c, faults log c = None) ->
  let user := from_user_id update in
  let msg := length (calls w) in
  exists w',
    clean_task update pdf out w = (w', Ok tt)
    /\ calls w'
       = calls w
         ++ [ReplyText user "Cleaning PDF..."]
         ++ progress_calls msg 8 "Cleaning" default_speed
         ++ [FitzSave pdf out;
             EditText msg "✔ Cleaned! Sending file...";
             ReplyDocument user out]
    /\ files w' = <[out := PdfFile (map (redact WATERMARK_KEYWORDS) ps)]> (files w)
    /\ files w' !! pdf = Some (PdfFile ps).
Proof.
  intros Hin Hne Hnf user msg.
  destruct (clean_task_start update pdf out w (Hnf _ _))
    as (w2 & Hstart & Hf2 & Hc2).
  rewrite Hstart. fold user msg in Hc2.
  erewrite bind_run; cycle 1.
  { rewrite (remove_watermark_opened _ _ _ ps) by (now rewrite Hf2).
    unfold fitz_save. rewrite save_raises_other, (Hnf _ _) by exact Hne.
    reflexivity. }
  erewrite bind_run by (apply extern_run, Hnf).
  unfold reply_document, os_path_exists, gets. unfold mbind, M_bind. simpl.
  rewrite lookup_insert_eq.
  rewrite bool_decide_eq_true_2 by eauto.
  rewrite (extern_run _ _ (Hnf _ _)).
  eexists. split; [reflexivity|]. simpl. rewrite Hc2, Hf2.
  split; [now rewrite <- !app_assoc|]. split; [reflexivity|].
  now rewrite lookup_insert_ne.
Qed.

(** X23. The clean job on a transport where nothing raises, for a
    readable document and an output path other than it: the user gets
    the announcement, the eight progress updates, the "Cleaned" update
    and the document, in this order, with the save between the progress
    run and the "Cleaned" update; afterwards the output holds the
    redacted pages and the uploaded original still holds its own. *)
Theorem clean_task_delivers (update : Update) (pdf out : string)
    (ps : list page) (w : env) :
  files w !! pdf = Some (PdfFile ps) ->
  out <> pdf ->
  (forall log c, faults log c = None) ->
  let user := from_user_id update in
  let msg := length (calls w) in
  exists w',
    clean_task update pdf out w = (w', Ok tt)
    /\ calls w'
       = calls w
         ++ [ReplyText user "Cleaning PDF..."]
         ++ progress_calls msg 8 "Cleaning" default_speed
         ++ [FitzSave pdf out;
             EditText msg "✔ Cleaned! Sending file...";
             ReplyDocument user out]
    /\ files w' = <[out := PdfFile (map (redact WATERMARK_KEYWORDS) ps)]> (files w)
    /\ files w' !! pdf = Some (PdfFile ps).
Proof. exact (clean_task_run update pdf out ps w). Qed.

(** X24. The clean job for a document PyMuPDF cannot open by the time
    the job runs -- the file is gone, or it is no PDF and nothing else
    PyMuPDF reads: the user still gets the announcement and the whole
    progress run; then PyMuPDF's exception leaves the job. Run by the
    worker, the only further call is the worker's [print] of that
    exception, "no such file: ..." for a file that is gone: the user is
    sent no failure message and no document, and no file is written. *)
Theorem clean_task_fails_silently (update : Update) (pdf out : string)
    (e : exn) (w : env) :
  open_error w pdf = Some e ->
  faults (calls w) (ReplyText (from_user_id update) "Cleaning PDF...") = None ->
  let user := from_user_id update in
  let msg := length (calls w) in
  exists w',
    clean_task update pdf out w = (w', Raise e)
    /\ is_Exception e = true
    /\ calls (after_job w (clean_task update pdf out))
       = calls w
         ++ [ReplyText user "Cleaning PDF..."]
         ++ progress_calls msg 8 "Cleaning" default_speed
         ++ [PrintLine ("Error in job: " +:+ exn_str e)]
    /\ files (after_job w (clean_task update pdf out)) = files w
    /\ (files w !! pdf = None -> exn_str e = "no such file: '" +:+ pdf +:+ "'").
Proof.
  intros Hopen Hreply user msg.
  destruct (clean_task_start update pdf out w Hreply)
    as (w2 & Hstart & Hf2 & Hc2).
  fold user msg in Hc2.
  assert (Hrun : clean_task update pdf out w = (w2, Raise e)).
  { rewrite Hstart. erewrite bind_raise; [reflexivity|].
    unfold remove_watermark. erewrite bind_raise; [reflexivity|].
    apply open_error_Some. unfold open_error. now rewrite Hf2. }
  exists w2. split; [exact Hrun|]. split.
  { unfold open_error in Hopen.
    destruct (files w !! pdf) as [[ps|c]|]; [discriminate | |now injection Hopen as <-].
    destruct (fitz_document pdf c); [discriminate | now injection Hopen as <-]. }
  unfold after_job. rewrite Hrun.
  change (calls (log_call ?c ?x)) with (calls x ++ [c]).
  change (files (log_call ?c ?x)) with (files x).
  rewrite Hc2, Hf2.
  split; [now rewrite <- !app_assoc|]. split; [reflexivity|].
  intros Hgone. unfold open_error in Hopen. rewrite Hgone in Hopen.
  now injection Hopen as <-.
Qed.

(* ===================================================================== *)
(** * The clean command on an upload named in capitals *)
(* ===================================================================== *)

Lemma endswith_upper_accepted (name : string) :
  endswith name ".PDF" = true -> endswith (lower name) ".pdf" = true.
Proof.
  intros H. apply endswith_spec in H as [pre ->].
  apply endswith_spec. exists (lower pre). now rewrite lower_append.
Qed.

(** The clean job from a path to that same path: the save is refused. *)
Lemma clean_task_same_path (update : Update) (pdf : string)
    (ps : list page) (w : env) :
  files w !! pdf = Some (PdfFile ps) ->
  faults (calls w) (ReplyText (from_user_id update) "Cleaning PDF...") = None ->
  let user := from_user_id update in
  let msg := length (calls w) in
  exists w',
    clean_task update pdf pdf w
    = (w', Raise (ValueError "save to original must be incremental"))
    /\ calls w'
       = calls w
         ++ [ReplyText user "Cleaning PDF..."]
         ++ progress_calls msg 8 "Cleaning" default_speed
         ++ [FitzSave pdf pdf]
    /\ files w' = files w.
Proof.
  intros Hin Hreply user msg.
  destruct (clean_task_start update pdf pdf w Hreply)
    as (w2 & Hstart & Hf2 & Hc2).
  fold user msg in Hc2. rewrite Hstart.
  exists (log_call (FitzSave pdf pdf) w2).
  split; [|split].
  - erewrite bind_raise; [reflexivity|].
    rewrite (remove_watermark_opened _ _ _ ps) by (now rewrite Hf2).
    unfold fitz_save. now rewrite save_raises_same.
  - change (calls (log_call ?c ?x)) with (calls x ++ [c]).
    rewrite Hc2. now rewrite <- !app_assoc.
  - exact Hf2.
Qed.

(** C10, as the code has it. An upload whose name ends in an uppercase
    ".PDF" is accepted, and when the name holds no lowercase ".pdf" --
    "REPORT.PDF" is one -- the path [/clean] derives for its output is
    the path of the upload itself: the job it enqueues is the clean job
    from that path to that same path. The job does not write over the
    upload: after the announcement and the progress run, PyMuPDF refuses
    the save onto the file it has open, [ValueError] leaves the job with
    no file changed, nothing is delivered, and the worker prints the
    error. *)
Theorem clean_refused_on_uppercase_upload (name : string) (user now : Z) :
  endswith name ".PDF" = true ->
  occurs ".pdf" name = false ->
  let pdf := upload_path user now name in
  let upd := update_of user in
  let refusal := ValueError "save to original must be incremental" in
  (forall (id : string) (st : bot),
     not_a_pdf (Some {| file_name := Some name; file_id := id |}) st
     = (st, Ok false))
  /\ clean_output pdf = pdf
  /\ (forall (st : bot) (f : file),
        let st1 := set_world (set_file pdf f (world st))
                     (fst (user_data_set user "last_pdf" pdf st)) in
        items (job_queue (fst (cmd_clean upd st1)))
        = items (job_queue st) ++ [clean_task upd pdf pdf])
  /\ (forall (w : env) (ps : list page),
        files w !! pdf = Some (PdfFile ps) ->
        faults (calls w) (ReplyText user "Cleaning PDF...") = None ->
        exists w',
          clean_task upd pdf pdf w = (w', Raise refusal)
          /\ calls w'
             = calls w
               ++ [ReplyText user "Cleaning PDF..."]
               ++ progress_calls (length (calls w)) 8 "Cleaning" default_speed
               ++ [FitzSave pdf pdf]
          /\ files w' = files w
          /\ after_job w (clean_task upd pdf pdf)
             = log_call (PrintLine ("Error in job: " +:+ exn_str refusal)) w').
Proof.
  intros Hend Hfree pdf upd refusal.
  assert (Hsame : clean_output pdf = pdf) by now apply clean_output_same.
  split; [|split; [exact Hsame|split]].
  - intros id st. unfold not_a_pdf. cbn [file_name].
    now rewrite (endswith_upper_accepted name Hend).
  - intros st f st1.
    assert (Hlast : last_pdf (from_user_id upd) st1 = Some pdf).
    { unfold st1, last_pdf. simpl. rewrite lookup_insert_eq. simpl.
      now rewrite lookup_insert_eq. }
    unfold cmd_clean.
    rewrite (require_pdf_present cmd_clean_body upd st1 pdf).
    + rewrite (cmd_clean_body_enqueues upd pdf st1 Hlast), Hsame. reflexivity.
    + apply (get_current_recorded _ pdf f); [exact Hlast | |].
      * apply upload_path_nonempty.
      * unfold st1. simpl. apply lookup_insert_eq.
  - clearbody pdf. intros w ps Hin Hreply.
    destruct (clean_task_same_path upd pdf ps w Hin Hreply)
      as (w' & Hrun & Hcalls & Hfiles).
    exists w'. split; [exact Hrun|]. split; [exact Hcalls|].
    split; [exact Hfiles|]. unfold after_job. now rewrite Hrun.
Qed.

(* ===================================================================== *)
(** * Further properties: the queue and its worker *)
(* ===================================================================== *)



(* ===================================================================== *)
(** * Further properties: from upload to delivery *)
(* ===================================================================== *)

(** X27. The whole path, on a transport where nothing raises: a user
    uploads [stem.pdf] (no other ".pdf" in the stem) that is a PDF, then
    sends [/clean]; the handler enqueues one job, and one pass of the
    worker runs it. Afterwards the upload still holds its pages, the
    file [stem_clean.pdf] beside it holds the redacted pages, the last
    call made is the delivery of that file to the user, the queue is
    empty and the worker is back at [get()]. *)
Theorem upload_then_clean_delivers (up cmd : Update) (d : Document)
    (stem : string) (ps : list page) (w0 : env) :
  from_user_id cmd = from_user_id up ->
  document up = Some d ->
  file_name d = Some (stem +:+ ".pdf") ->
  occurs ".pdf" stem = false ->
  remote_file (file_id d) = PdfFile ps ->
  (forall log c, faults log c = None) ->
  let user := from_user_id up in
  let ref := upload_path user (clock w0) (stem +:+ ".pdf") in
  let out := upload_path user (clock w0) (stem +:+ "_clean.pdf") in
  exists st1 st2 earlier,
    handle_pdf_upload up (start_bot w0) = (st1, Ok tt)
    /\ cmd_clean cmd st1 = (st2, Ok tt)
    /\ items (job_queue st2) = [clean_task cmd ref out]
    /\ files (world (worker 1 st2)) !! ref = Some (PdfFile ps)
    /\ files (world (worker 1 st2)) !! out
       = Some (PdfFile (map (redact WATERMARK_KEYWORDS) ps))
    /\ calls (world (worker 1 st2)) = earlier ++ [ReplyDocument user out]
    /\ items (job_queue (worker 1 st2)) = []
    /\ worker_thread (worker 1 st2) = Waiting.
Proof.
  intros Huser Hdoc Hname Hstem Hremote Hnf user ref out.
  assert (Hend : ends_with_nocase (stem +:+ ".pdf") ".pdf")
    by (exists stem, ".pdf"; split; reflexivity).
  destruct (handle_pdf_upload_accepted up d (stem +:+ ".pdf") (start_bot w0)
              Hdoc Hname Hend Hnf)
    as (st1 & Hup & _ & Hfiles & Hcur & Hq1 & Hth1).
  change (clock (world (start_bot w0))) with (clock w0) in Hfiles, Hcur.
  fold user ref in Hfiles, Hcur. rewrite Hremote in Hfiles.
  assert (Hcur' : get_current (from_user_id cmd) st1 = Some ref)
    by now rewrite Huser.
  destruct (cmd_clean_run cmd st1 ref Hcur')
    as (st2 & Hcmd & Hw2 & _ & Hq2 & Hth2).
  assert (Hout : clean_output ref = out)
    by (apply clean_output_of_stem; exact Hstem).
  rewrite Hout, Hq1 in Hq2. simpl in Hq2.
  assert (Href : files (world st2) !! ref = Some (PdfFile ps))
    by (rewrite Hw2, Hfiles; apply lookup_insert_eq).
  assert (Hne : out <> ref) by apply clean_output_differs.
  destruct (clean_task_run cmd ref out ps (world st2) Href Hne Hnf)
    as (w3 & Hrun & Hcalls & Hfiles3 & Hkeep).
  assert (Hworker : worker 1 st2
    = task_done [Returned (clean_task cmd ref out)]
        (set_world w3
           (set_worker {| items := []; unfinished_tasks := 1 |}
              (Running (clean_task cmd ref out))
              [Started (clean_task cmd ref out)] st2))).
  { cbn [worker]. unfold worker_iteration, worker_get.
    rewrite Hth2, Hth1, Hq2. cbn [start_bot worker_thread items mbind option_bind
                                   unfinished_tasks].
    unfold worker_call. cbn [set_worker worker_thread world].
    rewrite Hrun. reflexivity. }
  exists st1, st2,
    (calls (world st2)
     ++ [ReplyText (from_user_id cmd) "Cleaning PDF..."]
     ++ progress_calls (length (calls (world st2))) 8 "Cleaning" default_speed
     ++ [FitzSave ref out;
         EditText (length (calls (world st2))) "✔ Cleaned! Sending file..."]).
  split; [exact Hup|]. split; [exact Hcmd|]. split; [now rewrite Hq2|].
  rewrite Hworker. unfold task_done. simpl.
  split; [exact Hkeep|]. split; [rewrite Hfiles3; apply lookup_insert_eq|].
  split; [|split; reflexivity].
  rewrite Hcalls, Huser. fold user. now rewrite <- !app_assoc.
Qed.

End Bot.

(* ===================================================================== *)
(** * The statements at concrete inputs *)
(* ===================================================================== *)





(** [/clean] from a session that never uploaded. *)
Lemma require_pdf_without_document_witness :
  let st := start_bot empty_env in
  let st' := fst (cmd_clean no_faults sample_fitz sample_redact [] (update_of 7) st) in
  job_queue st' = job_queue st
  /\ calls (world st') = [ReplyText 7 no_pdf_text].
Proof.
  intros st st'.
  destruct (require_pdf_without_document no_faults
              (cmd_clean_body no_faults sample_fitz sample_redact []) (update_of 7) st
              (or_introl eq_refl))
    as (H1 & H2 & _).
  split; [exact H1 | exact H2].
Defined.

(** Two uploads by user 7, a minute apart. *)
Lemma upload_last_write_wins_witness :
  let d1 := {| file_name := Some "a.pdf"; file_id := "f1" |} in
  let d2 := {| file_name := Some "b.PDF"; file_id := "f2" |} in
  let u1 := {| from_user_id := 7; document := Some d1 |} in
  let u2 := {| from_user_id := 7; document := Some d2 |} in
  let upload := handle_pdf_upload no_faults sample_reader sample_remote sample_getsize in
  let st1 := fst (upload u1 (start_bot empty_env)) in
  let st1' := set_world {| files := files (world st1);
                           calls := calls (world st1);
                           clock := 1700000060 |} st1 in
  let st2 := fst (upload u2 st1') in
  get_current 7 st1 = Some "pdf_files/7_1700000000_a.pdf"
  /\ get_current 7 st2 = Some "pdf_files/7_1700000060_b.PDF".
Proof.
  intros d1 d2 u1 u2 upload st1 st1' st2.
  assert (E1 : ends_with_nocase "a.pdf" ".pdf")
    by (exists "a", ".pdf"; split; reflexivity).
  assert (E2 : ends_with_nocase "b.PDF" ".pdf")
    by (exists "b", ".PDF"; split; reflexivity).
  assert (R1 : upload u1 (start_bot empty_env) = (st1, Ok tt))
    by (vm_compute; reflexivity).
  assert (R2 : upload u2 st1' = (st2, Ok tt)) by (vm_compute; reflexivity).
  destruct (upload_last_write_wins no_faults sample_reader sample_remote sample_getsize
              u1 u2 d1 d2 "a.pdf" "b.PDF"
              (start_bot empty_env) st1 st1' st2
              eq_refl eq_refl eq_refl E1 eq_refl eq_refl E2 R1 eq_refl R2)
    as (H1 & H2 & _).
  split; [exact H1 | exact H2].
Defined.

(** Session 1 records A, session 2 records X, session 1 records B and C,
    and session 1 finalizes: one job, the merge of A, B, C, which writes
    their three pages in that order; the set of session 1 is empty and
    session 2 keeps X. *)
Lemma finalize_merges_session_set_witness :
  let rs := [(1, "A.pdf"); (2, "X.pdf"); (1, "B.pdf"); (1, "C.pdf")] in
  let m1 := record_all rs (start_merging four_file_env) in
  let m2 := fst (cmd_done no_faults sample_reader sample_output
                          "Merging" "Merged" (update_of 1) m1) in
  let job := merge_task no_faults sample_reader "Merging" "Merged" (update_of 1)
                        ["A.pdf"; "B.pdf"; "C.pdf"] "pdf_files/merged.pdf" in
  items (job_queue (process m2)) = [job]
  /\ merge_set 1 m2 = []
  /\ merge_set 2 m2 = ["X.pdf"]
  /\ files (fst (job four_file_env)) !! "pdf_files/merged.pdf"
     = Some (PdfFile ["a"; "b"; "c"]).
Proof.
  intros rs m1 m2 job.
  assert (Hall : Forall (fun f => exists ps,
                           files four_file_env !! f = Some (PdfFile ps))
                        ["A.pdf"; "B.pdf"; "C.pdf"])
    by (repeat constructor; eexists; reflexivity).
  destruct (finalize_merges_session_set no_faults sample_reader sample_output
              "Merging" "Merged" rs 1 (start_merging four_file_env) eq_refl)
    as (_ & H2 & H3 & H4 & H5).
  split; [exact H2|]. split; [exact H3|].
  split; [exact (H4 2 ltac:(discriminate))|].
  destruct (H5 four_file_env Hall (fun _ _ => eq_refl))
    as (w' & Hrun & _ & Hfiles).
  change (job four_file_env = (w', Ok tt)) in Hrun.
  rewrite Hrun. cbn [fst]. rewrite Hfiles. apply lookup_insert_eq.
Defined.

(** "REPORT.PDF", uploaded by user 7: the job cleans the upload onto
    itself, the save is refused, and the worker prints the refusal. *)
Lemma clean_refused_on_uppercase_upload_witness :
  let pdf := "pdf_files/7_1700000000_REPORT.PDF" in
  let w := {| files := {[ pdf := PdfFile ["p1"; "p2"; "p3"] ]};
              calls := []; clock := 1700000000 |} in
  let job := clean_task no_faults sample_fitz sample_mark [] (update_of 7)
                        pdf pdf in
  clean_output pdf = pdf
  /\ (exists w',
        job w = (w', Raise (ValueError "save to original must be incremental"))
        /\ files w' = files w)
  /\ last (calls (after_job w job))
     = Some (PrintLine "Error in job: save to original must be incremental").
Proof.
  intros pdf w job.
  destruct (clean_refused_on_uppercase_upload no_faults sample_fitz sample_mark
              [] "REPORT.PDF" 7 1700000000 eq_refl eq_refl)
    as (_ & H2 & _ & H4).
  split; [exact H2|].
  destruct (H4 w ["p1"; "p2"; "p3"] eq_refl eq_refl)
    as (w' & Hrun & _ & Hfiles & Hafter).
  split; [exists w'; split; [exact Hrun | exact Hfiles]|].
  change (after_job w job = log_call
            (PrintLine "Error in job: save to original must be incremental") w')
    in Hafter.
  rewrite Hafter. apply last_snoc.
Defined.

(** The clean job does not write over an upload named in capitals. User 7
    uploads "REPORT.PDF", a PDF of three pages, and sends [/clean]; the
    redaction would mark every page. The path derived for the output is
    the upload's own, one job is enqueued, and after the worker has run
    it the file holds the three uploaded pages, not the cleaned ones: no
    file has changed, no document was sent, and the last call is the
    worker's print of PyMuPDF's refusal. *)
Lemma clean_leaves_uppercase_upload_as_it_was :
  let upload := handle_pdf_upload no_faults sample_reader sample_remote
                                  sample_getsize in
  let clean := cmd_clean no_faults sample_fitz sample_mark [] in
  let pdf := "pdf_files/7_1700000000_REPORT.PDF" in
  let st1 := fst (upload upload_REPORT (start_bot empty_env)) in
  let st2 := fst (clean command_7 st1) in
  let st3 := worker 1 st2 in
  get_current 7 st1 = Some pdf
  /\ clean_output pdf = pdf
  /\ length (items (job_queue st2)) = 1%nat
  /\ items (job_queue st3) = []
  /\ files (world st1) !! pdf = Some (PdfFile ["p1"; "p2"; "p3"])
  /\ files (world st3) !! pdf = Some (PdfFile ["p1"; "p2"; "p3"])
  /\ files (world st3) !! pdf
     <> Some (PdfFile (map (sample_mark []) ["p1"; "p2"; "p3"]))
  /\ files (world st3) = files (world st1)
  /\ last (calls (world st3))
     = Some (PrintLine "Error in job: save to original must be incremental")
  /\ Forall (fun c => match c with ReplyDocument _ _ => False | _ => True end)
            (calls (world st3)).
Proof.
  intros upload clean pdf st1 st2 st3.
  split; [vm_compute; reflexivity|]. split; [vm_compute; reflexivity|].
  split; [vm_compute; reflexivity|]. split; [vm_compute; reflexivity|].
  split; [vm_compute; reflexivity|]. split; [vm_compute; reflexivity|].
  split; [intros H; vm_compute in H; discriminate H|].
  split; [vm_compute; reflexivity|]. split; [vm_compute; reflexivity|].
  vm_compute. repeat constructor.
Qed.


(** A three-page document. *)
Lemma split_pdf_one_path_per_page_witness :
  exists w',
    split_pdf no_faults sample_reader "in.pdf" "out" three_page_env
    = (w', Ok ["out/page_1.pdf"; "out/page_2.pdf"; "out/page_3.pdf"])
    /\ get_page_count sample_reader "in.pdf" three_page_env = (three_page_env, Ok (Some 3)).
Proof.
  destruct (split_pdf_one_path_per_page no_faults sample_reader "in.pdf" "out"
              ["a"; "b"; "c"] three_page_env eq_refl (fun _ _ => eq_refl))
    as (w' & H1 & _ & _ & H4).
  exists w'. split; [exact H1 | exact H4].
Defined.

(** A text file sent as a document. *)
Lemma upload_rejects_other_names_witness :
  let d := {| file_name := Some "notes.txt"; file_id := "f3" |} in
  let u := {| from_user_id := 7; document := Some d |} in
  let st' := fst (handle_pdf_upload no_faults sample_reader sample_remote sample_getsize
                                    u (start_bot empty_env)) in
  calls (world st') = [ReplyText 7 not_pdf_text]
  /\ files (world st') = ∅
  /\ last_pdf 7 st' = None.
Proof.
  intros d u st'.
  assert (Hno : ~ ends_with_nocase "notes.txt" ".pdf").
  { intros H. apply (endswith_lower_spec "notes.txt" ".pdf" eq_refl) in H.
    vm_compute in H. discriminate H. }
  destruct (upload_rejects_other_names no_faults sample_reader sample_remote sample_getsize
              u d "notes.txt" (start_bot empty_env)
              eq_refl eq_refl Hno)
    as (H1 & H2 & _ & H4 & _).
  split; [exact H1|]. split; [exact H2 | exact H4].
Defined.

(* ===================================================================== *)
(** * The further properties at concrete inputs *)
(* ===================================================================== *)

Lemma human_readable_size_whole_units_witness :
  human_readable_size 512 = "512.0 B"
  /\ human_readable_size (1024 * 512) = "512.0 KB"
  /\ human_readable_size (1024 * 1024 * 512) = "512.0 MB".
Proof.
  destruct (human_readable_size_whole_units 512 ltac:(lia)) as [H1 H2].
  destruct (H2 ltac:(lia)) as [H3 H4].
  split; [exact H1 | split; [exact H3 | exact H4]].
Defined.

(** No steps, on a transport that would fail and with a pause length
    that would be refused. *)
Lemma progress_bar_without_steps_witness :
  progress_bar updates_fail 0%nat 0 "Cleaning" (float_of_int (-1)) empty_env
  = (empty_env, Ok tt).
Proof.
  apply (progress_bar_without_steps updates_fail 0%nat 0 "Cleaning"
           (float_of_int (-1)) empty_env).
  lia.
Defined.


Lemma progress_percent_exact_under_50_witness :
  progress_percent 5 8 = Some 62.
Proof.
  apply (progress_percent_exact_under_50 5 8); lia.
Defined.

Lemma progress_bar_numbers_witness :
  progress_filled 100 100 = Some 20 /\ progress_percent 100 100 = Some 100.
Proof.
  destruct (progress_bar_numbers 100 100 ltac:(lia) ltac:(lia))
    as (f & p & Hf & Hp & _ & _ & _ & Hlast).
  destruct (Hlast eq_refl) as [-> ->]. split; [exact Hf | exact Hp].
Defined.

(** A missing input and an input that is a text file: [split_pdf] raises
    what [PdfReader] raises, [compress_pdf] what PyMuPDF raises. *)
Lemma operations_refuse_unreadable_input_witness :
  split_pdf no_faults sample_reader "missing.pdf" "out" empty_env
  = (empty_env, Raise (FileNotFoundError "missing.pdf"))
  /\ compress_pdf no_faults sample_reader sample_fitz sample_deflate
                  "missing.pdf" "out.pdf" empty_env
     = (empty_env, Raise (Exn ExceptionClass "no such file: 'missing.pdf'"))
  /\ split_pdf no_faults sample_reader "notes.pdf" "out" notes_env
     = (notes_env, Raise (PdfReadError "EOF marker not found"))
  /\ compress_pdf no_faults sample_reader sample_fitz sample_deflate
                  "notes.pdf" "out.pdf" notes_env
     = (notes_env, Raise (FileDataError "Failed to open file")).
Proof.
  destruct (operations_refuse_unreadable_input no_faults sample_reader
              sample_fitz sample_redact [] sample_deflate sample_rotate
              sample_render "missing.pdf" "out" None 90 150 empty_env)
    as (H1 & _ & _).
  destruct (operations_refuse_unreadable_input no_faults sample_reader
              sample_fitz sample_redact [] sample_deflate sample_rotate
              sample_render "missing.pdf" "out.pdf" None 90 150 empty_env)
    as (_ & H2 & _).
  destruct (operations_refuse_unreadable_input no_faults sample_reader
              sample_fitz sample_redact [] sample_deflate sample_rotate
              sample_render "notes.pdf" "out" None 90 150 notes_env)
    as (H3 & _ & _).
  destruct (operations_refuse_unreadable_input no_faults sample_reader
              sample_fitz sample_redact [] sample_deflate sample_rotate
              sample_render "notes.pdf" "out.pdf" None 90 150 notes_env)
    as (_ & H4 & _).
  split; [exact (proj1 (H1 eq_refl))|].
  split; [exact (proj1 (proj2 (H2 _ eq_refl)))|].
  split; [exact (proj1 (H3 eq_refl))|].
  exact (proj1 (proj2 (H4 _ eq_refl))).
Defined.

(** A copy beside the input is written; a save onto the input is refused. *)
Lemma remove_watermark_saves_redacted_copy_witness :
  (exists w',
     remove_watermark no_faults sample_fitz sample_redact ["DRAFT"]
                      "in.pdf" "out.pdf" None three_page_env = (w', Ok tt)
     /\ page_count_of w' "out.pdf" = Some 3
     /\ files w' !! "in.pdf" = Some (PdfFile ["a"; "b"; "c"]))
  /\ (exists w',
        remove_watermark no_faults sample_fitz sample_redact ["DRAFT"]
                         "in.pdf" "in.pdf" None three_page_env
        = (w', Raise (ValueError "save to original must be incremental"))
        /\ files w' = files three_page_env).
Proof.
  split.
  - destruct (remove_watermark_saves_redacted_copy no_faults sample_fitz
                sample_redact ["DRAFT"] "in.pdf" "out.pdf" None
                ["a"; "b"; "c"] three_page_env eq_refl eq_refl)
      as (w' & _ & H).
    rewrite (proj2 (String.eqb_neq "out.pdf" "in.pdf")) in H by discriminate.
    destruct H as (H1 & _ & H3 & H4).
    exists w'. split; [exact H1|]. split; [exact H3 | exact H4].
  - destruct (remove_watermark_saves_redacted_copy no_faults sample_fitz
                sample_redact ["DRAFT"] "in.pdf" "in.pdf" None
                ["a"; "b"; "c"] three_page_env eq_refl eq_refl)
      as (w' & _ & H).
    rewrite String.eqb_refl in H. exists w'. exact H.
Defined.

(** PyMuPDF's save raises, once on its own and once because the output
    is the input: the fallback copies the three pages. *)
Lemma compress_pdf_keeps_every_page_witness :
  (exists w',
     compress_pdf save_fails sample_reader sample_fitz sample_deflate
                  "in.pdf" "out.pdf" three_page_env = (w', Ok tt)
     /\ files w' !! "out.pdf" = Some (PdfFile ["a"; "b"; "c"])
     /\ page_count_of w' "out.pdf" = Some 3)
  /\ (exists w',
        compress_pdf no_faults sample_reader sample_fitz sample_deflate
                     "in.pdf" "in.pdf" three_page_env = (w', Ok tt)
        /\ calls w' = [FitzSave "in.pdf" "in.pdf"; OpenWrite "in.pdf"]
        /\ files w' !! "in.pdf" = Some (PdfFile ["a"; "b"; "c"])).
Proof.
  split.
  - destruct (compress_pdf_keeps_every_page save_fails sample_reader
                sample_fitz sample_deflate "in.pdf" "out.pdf"
                ["a"; "b"; "c"] three_page_env eq_refl (fun _ => eq_refl))
      as (w' & written & H1 & H2 & H3 & H4).
    exists w'. split; [exact H1|]. split; [|exact H4].
    rewrite H2, H3. apply lookup_insert_eq.
  - destruct (compress_pdf_keeps_every_page no_faults sample_reader
                sample_fitz sample_deflate "in.pdf" "in.pdf"
                ["a"; "b"; "c"] three_page_env eq_refl (fun _ => eq_refl))
      as (w' & written & H1 & H2 & H3 & H4).
    exists w'. split; [exact H1|]. split.
    + pose proof (f_equal (fun r => calls (fst r)) H1) as Hc.
      cbn [fst] in Hc. rewrite <- Hc. vm_compute. reflexivity.
    + rewrite H2, H3. apply lookup_insert_eq.
Defined.

Lemma rotate_pdf_rotates_in_order_witness :
  rotate_pdf no_faults sample_reader sample_rotate "in.pdf" "out.pdf" 90 three_page_env
  = (set_file "out.pdf" (PdfFile ["a@90"; "b@90"; "c@90"])
       (log_call (OpenWrite "out.pdf") three_page_env), Ok tt).
Proof.
  apply (rotate_pdf_rotates_in_order no_faults sample_reader sample_rotate
           "in.pdf" "out.pdf" 90 ["a"; "b"; "c"] ["a@90"; "b@90"; "c@90"]
           three_page_env).
  - reflexivity.
  - repeat constructor.
  - reflexivity.
Defined.

(** The second of three pages is refused, after the first was rotated. *)
Lemma rotate_pdf_refused_page_witness :
  rotate_pdf no_faults sample_reader sample_rotate_picky "in.pdf" "out.pdf" 90 three_page_env
  = (three_page_env, Raise (Exn ExceptionClass "cannot rotate")).
Proof.
  apply (rotate_pdf_refused_page no_faults sample_reader sample_rotate_picky
           "in.pdf" "out.pdf" 90 ["a"] ["c"] ["a@90"] "b").
  - reflexivity.
  - repeat constructor.
  - reflexivity.
Defined.

Lemma split_pdf_writes_each_page_witness :
  exists w' out_paths,
    split_pdf no_faults sample_reader "in.pdf" "out" three_page_env = (w', Ok out_paths)
    /\ out_paths !! 1%nat = Some "out/page_2.pdf"
    /\ files w' !! "out/page_2.pdf" = Some (PdfFile ["b"]).
Proof.
  destruct (split_pdf_writes_each_page no_faults sample_reader "in.pdf" "out"
              ["a"; "b"; "c"] three_page_env eq_refl (fun _ _ => eq_refl))
    as (w' & out_paths & H1 & H2 & _).
  exists w', out_paths. split; [exact H1|].
  exact (H2 1%nat "b" eq_refl).
Defined.

Lemma split_then_merge_restores_witness :
  exists w1 out_paths w2,
    split_pdf no_faults sample_reader "in.pdf" "out" three_page_env = (w1, Ok out_paths)
    /\ merge_pdfs no_faults sample_reader out_paths "again.pdf" w1 = (w2, Ok tt)
    /\ files w2 !! "again.pdf" = Some (PdfFile ["a"; "b"; "c"]).
Proof.
  exact (split_then_merge_restores no_faults sample_reader "in.pdf" "out" "again.pdf"
           ["a"; "b"; "c"] three_page_env eq_refl (fun _ _ => eq_refl)).
Defined.

Lemma extract_images_one_image_per_page_witness :
  exists w',
    extract_images no_faults sample_fitz sample_render "in.pdf" "out" 150 three_page_env
    = (w', Ok ["out/page_1.png"; "out/page_2.png"; "out/page_3.png"])
    /\ files w' !! "out/page_3.png" = Some (OtherFile "png:c")
    /\ files w' !! "in.pdf" = Some (PdfFile ["a"; "b"; "c"]).
Proof.
  destruct (extract_images_one_image_per_page no_faults sample_fitz sample_render
              "in.pdf" "out" 150 ["a"; "b"; "c"] three_page_env
              eq_refl (fun _ _ => eq_refl))
    as (w' & H1 & _ & H3 & H4 & _).
  exists w'. split; [exact H1|]. split; [exact (H3 2%nat "c" eq_refl)|].
  rewrite H4; [reflexivity|].
  intros Hin. vm_compute in Hin.
  repeat (apply elem_of_cons in Hin as [Hin|Hin]; [discriminate Hin|]).
  now apply elem_of_nil in Hin.
Defined.

Lemma merge_pdfs_concatenates_witness :
  exists w',
    merge_pdfs no_faults sample_reader ["A.pdf"; "B.pdf"; "C.pdf"] "out.pdf" four_file_env
    = (w', Ok tt)
    /\ files w' !! "out.pdf" = Some (PdfFile ["a"; "b"; "c"])
    /\ page_count_of w' "out.pdf" = Some 3.
Proof.
  destruct (merge_pdfs_concatenates no_faults sample_reader ["A.pdf"; "B.pdf"; "C.pdf"]
              "out.pdf" four_file_env)
    as (w' & H1 & _ & H3 & H4).
  - repeat constructor; eexists; reflexivity.
  - reflexivity.
  - exists w'. split; [exact H1|]. split; [|exact H4].
    rewrite H3. apply lookup_insert_eq.
Defined.

(** The second of three files is missing. *)
Lemma merge_pdfs_refuses_unreadable_file_witness :
  merge_pdfs no_faults sample_reader ["A.pdf"; "gone.pdf"; "B.pdf"] "out.pdf" four_file_env
  = (four_file_env, Raise (FileNotFoundError "gone.pdf")).
Proof.
  apply (merge_pdfs_refuses_unreadable_file no_faults sample_reader ["A.pdf"] ["B.pdf"]
           "gone.pdf" "out.pdf" four_file_env).
  - repeat constructor. eexists. reflexivity.
  - reflexivity.
Defined.

(** The same path written in two ways has the same components. *)
Lemma upload_path_inj_witness :
  7 = 3 + 4 /\ 1700000000 = 1699999999 + 1 /\ "a.pdf" = "a" +:+ ".pdf".
Proof.
  apply (upload_path_inj 7 (3 + 4) 1700000000 (1699999999 + 1)
                         "a.pdf" ("a" +:+ ".pdf")).
  reflexivity.
Defined.

Lemma upload_accepts_and_reports_witness :
  exists st',
    handle_pdf_upload no_faults sample_reader sample_remote sample_getsize upload_a
                      (start_bot empty_env) = (st', Ok tt)
    /\ length (calls (world st')) = 4%nat
    /\ get_current 7 st' = Some "pdf_files/7_1700000000_a.pdf"
    /\ items (job_queue st') = [].
Proof.
  destruct (upload_accepts_and_reports no_faults sample_reader sample_remote sample_getsize
              upload_a {| file_name := Some "a.pdf"; file_id := "f1" |} "a.pdf"
              (start_bot empty_env) eq_refl eq_refl)
    as (st' & H1 & H2 & _ & H4 & H5 & _).
  - exists "a", ".pdf". split; reflexivity.
  - intros log c. reflexivity.
  - exists st'. split; [exact H1|]. split; [now rewrite H2|].
    split; [exact H4 | now rewrite H5].
Defined.

(** A second upload whose transfer times out, after a first that
    succeeded: the first stays current. *)
Lemma upload_failed_download_keeps_current_witness :
  let st := fst (handle_pdf_upload no_faults sample_reader sample_remote sample_getsize
                                   upload_a (start_bot empty_env)) in
  exists st',
    handle_pdf_upload download_fails sample_reader sample_remote sample_getsize
                      upload_report st
    = (st', Raise (Exn ExceptionClass "Timed out"))
    /\ get_current 7 st' = Some "pdf_files/7_1700000000_a.pdf".
Proof.
  intros st.
  destruct (upload_failed_download_keeps_current download_fails sample_reader sample_remote
              sample_getsize upload_report
              {| file_name := Some "report.pdf"; file_id := "f2" |}
              "report.pdf" st (Exn ExceptionClass "Timed out")
              eq_refl eq_refl)
    as (st' & H1 & _ & _ & H4 & _).
  - exists "report", ".pdf". split; reflexivity.
  - reflexivity.
  - right. split; reflexivity.
  - exists st'. split; [exact H1|].
    etransitivity; [exact H4|]. vm_compute. reflexivity.
Defined.

Lemma require_pdf_passes_to_body_witness :
  let st := fst (handle_pdf_upload no_faults sample_reader sample_remote sample_getsize
                                   upload_a (start_bot empty_env)) in
  let body := cmd_clean_body no_faults sample_fitz sample_redact [] in
  require_pdf no_faults body command_7 st = body command_7 st.
Proof.
  intros st body.
  apply (require_pdf_passes_to_body no_faults body command_7 st
           "pdf_files/7_1700000000_a.pdf" (PdfFile ["p1"; "p2"; "p3"])).
  - vm_compute. reflexivity.
  - discriminate.
  - vm_compute. reflexivity.
Defined.

Lemma cmd_clean_only_enqueues_witness :
  let st := fst (handle_pdf_upload no_faults sample_reader sample_remote sample_getsize
                                   upload_a (start_bot empty_env)) in
  exists st',
    cmd_clean no_faults sample_fitz sample_redact [] command_7 st = (st', Ok tt)
    /\ world st' = world st
    /\ length (items (job_queue st')) = 1%nat.
Proof.
  intros st.
  destruct (cmd_clean_only_enqueues no_faults sample_fitz sample_redact [] command_7 st
              "pdf_files/7_1700000000_a.pdf")
    as (st' & H1 & H2 & _ & H4 & _).
  - vm_compute. reflexivity.
  - exists st'. split; [exact H1|]. split; [exact H2|]. now rewrite H4.
Defined.

Lemma clean_output_appends_suffix_witness :
  clean_output "pdf_files/7_1700000000_report.pdf"
  = "pdf_files/7_1700000000_report_clean.pdf".
Proof.
  exact (proj1 (clean_output_appends_suffix 7 1700000000 "report" eq_refl)).
Defined.

Lemma clean_task_delivers_witness :
  exists w',
    clean_task no_faults sample_fitz sample_redact [] command_7 "in.pdf" "in_clean.pdf"
               three_page_env = (w', Ok tt)
    /\ length (calls w') = 20%nat
    /\ files w' !! "in_clean.pdf" = Some (PdfFile ["a"; "b"; "c"])
    /\ files w' !! "in.pdf" = Some (PdfFile ["a"; "b"; "c"]).
Proof.
  destruct (clean_task_delivers no_faults sample_fitz sample_redact [] command_7
              "in.pdf" "in_clean.pdf" ["a"; "b"; "c"] three_page_env eq_refl)
    as (w' & H1 & H2 & H3 & H4).
  - discriminate.
  - intros log c. reflexivity.
  - exists w'. split; [exact H1|]. split; [now rewrite H2|].
    split; [|exact H4]. rewrite H3. apply lookup_insert_eq.
Defined.

(** The document is gone when the job runs. *)
Lemma clean_task_fails_silently_witness :
  let job := clean_task no_faults sample_fitz sample_redact [] command_7
                        "gone.pdf" "gone_clean.pdf" in
  exists w',
    job empty_env = (w', Raise (Exn ExceptionClass "no such file: 'gone.pdf'"))
    /\ last (calls (after_job empty_env job))
       = Some (PrintLine "Error in job: no such file: 'gone.pdf'")
    /\ files (after_job empty_env job) = ∅.
Proof.
  intros job.
  destruct (clean_task_fails_silently no_faults sample_fitz sample_redact []
              command_7 "gone.pdf" "gone_clean.pdf"
              (fitz_FileNotFoundError "gone.pdf") empty_env eq_refl eq_refl)
    as (w' & H1 & _ & H3 & H4 & _).
  exists w'. split; [exact H1|]. split; [|exact H4].
  fold job in H3. now rewrite H3.
Defined.



Lemma upload_then_clean_delivers_witness :
  exists st1 st2 earlier,
    handle_pdf_upload no_faults sample_reader sample_remote sample_getsize upload_report
                      (start_bot empty_env) = (st1, Ok tt)
    /\ cmd_clean no_faults sample_fitz sample_redact [] command_7 st1 = (st2, Ok tt)
    /\ files (world (worker 1 st2)) !! "pdf_files/7_1700000000_report_clean.pdf"
       = Some (PdfFile ["p1"; "p2"; "p3"])
    /\ calls (world (worker 1 st2))
       = earlier ++ [ReplyDocument 7 "pdf_files/7_1700000000_report_clean.pdf"].
Proof.
  destruct (upload_then_clean_delivers no_faults sample_reader sample_fitz sample_remote sample_getsize
              sample_redact [] upload_report command_7
              {| file_name := Some "report.pdf"; file_id := "f2" |}
              "report" ["p1"; "p2"; "p3"] empty_env
              eq_refl eq_refl eq_refl eq_refl eq_refl (fun _ _ => eq_refl))
    as (st1 & st2 & earlier & H1 & H2 & _ & _ & H5 & H6 & _).
  exists st1, st2, earlier.
  split; [exact H1|]. split; [exact H2|]. split; [exact H5 | exact H6].
Defined.

(** A job that exits the interpreter, with a job queued behind it. *)
Lemma escaping_job_ends_worker_witness :
  let st := fst (enqueue job_ok (fst (enqueue job_exit (start_bot empty_env)))) in
  exists st1,
    worker_iteration st = Some st1
    /\ worker_thread st1 = Terminated (Exn BaseExceptionOnly "SystemExit")
    /\ items (job_queue st1) = [job_ok]
    /\ worker 5 st1 = st1.
Proof.
  intros st.
  destruct (escaping_job_ends_worker st job_exit [job_ok] empty_env
              (Exn BaseExceptionOnly "SystemExit")
              eq_refl eq_refl eq_refl eq_refl)
    as (st1 & H1 & H2 & H3 & H4).
  exists st1. split; [exact H1|]. split; [exact H2|]. split; [exact H3|].
  apply H4.
Defined.
